(** * rpg-project: the character / combat / inventory rules of [game/common.py]

    A shallow embedding of the rule layer of [src/game/common.py] ([Stats],
    [Item], [Inventory], [Character]) together with the properties of the
    specification that concern it.

    Conventions of the embedding.
    - Python [int] is [Z]; a field whose value may be [None] is an [option].
    - A [NamedTuple] is a record; iterating over it is iterating over the list
      of its fields, in declaration order.
    - A [dict] is a [gmap]; a [Counter] is a [gmap] read with default [0].
      A key is hashed before the dictionary is touched: an [Item] that holds
      an [Action] (whose [effects] is a [dict]) has no hash, and every access
      to the backpack with it raises [TypeError].
    - A raised exception is a value of [exn]; the methods of [Inventory]
      mutate the dictionaries they hold, so they are state transformers that
      return the store as it is when the call ends, also when it raises.
    - A finite [float] denotes a rational number exactly; [int(x)] on it is
      exact (no rounding is involved), so the damage of a [DamageInstance] is
      embedded as [Q], with the two non-finite cases kept apart. *)

From Stdlib Require Import ZArith QArith Qround Lia.
From stdpp Require Import base option list strings countable gmap fin_maps
  pretty.

Local Open Scope string_scope.
Local Open Scope Z_scope.

(** ** Exceptions *)

(** The messages of the [ValueError]s raised by [Inventory]. *)
Inductive value_error_msg : Type :=
  | NotEquippable        (* "Item {item} not equippable" *)
  | SlotDoesNotExist     (* "Slot {slot} does not exist" *)
  | SlotIsEmpty          (* "Slot {slot} is empty" *)
  | NotEnough            (* "Inventory does not contain enough {item} to remove {count}" *)
  | NotAny               (* "Inventory does not contain any {item}" *)
  | CannotConvertNaN.    (* int(nan) *)

Inductive exn : Type :=
  | ValueError (msg : value_error_msg)
  | AssertionError
  | KeyError
  | IndexError
  | TypeError
  | AttributeError
  | OverflowError.

(** The outcome of a call that may raise. *)
Inductive result (A : Type) : Type :=
  | Ok (a : A)
  | Raise (e : exn).
Arguments Ok {A} a.
Arguments Raise {A} e.

Definition raises {A} (r : result A) : Prop :=
  match r with Raise _ => True | Ok _ => False end.

Definition succeeds {A} (r : result A) : Prop :=
  match r with Raise _ => False | Ok _ => True end.

(** ** Stats *)

Module Stats.

Record t : Type := mk {
  max_health : option Z;
  max_stamina : option Z;
  max_mana : option Z;
  strength : option Z;
  agility : option Z;
  acumen : option Z;
  armor : option Z;
  magical_resistance : option Z
}.

(** [Stats()]: every field keeps its default, [None]. *)
Definition unset : t := mk None None None None None None None None.

(** Iteration over the tuple: the fields in declaration order. *)
Definition to_list (s : t) : list (option Z) :=
  [max_health s; max_stamina s; max_mana s; strength s; agility s;
   acumen s; armor s; magical_resistance s].

(** [Stats] applied to an unpacked list: positional arguments fill the
    fields from the left, the missing ones keep the default [None]; more
    than eight is a [TypeError]. *)
Definition of_list (l : list (option Z)) : result t :=
  if (8 <? length l)%nat then Raise TypeError
  else
    let f (i : nat) : option Z := mjoin (l !! i) in
    Ok (mk (f 0%nat) (f 1%nat) (f 2%nat) (f 3%nat) (f 4%nat) (f 5%nat)
           (f 6%nat) (f 7%nat)).

(** The body of the loop of [modify]: [old] unless [new] is set. *)
Definition pick {A} (old_new : option A * option A) : option A :=
  match old_new with
  | (old, None) => old
  | (_, Some new) => Some new
  end.

(** [Stats.modify(self, changes)]. *)
Definition modify (self changes : t) : result t :=
  let new_stats := map pick (zip (to_list self) (to_list changes)) in
  of_list new_stats.

(** Subscripting, [bonus[i]]; past the last field it is an [IndexError]. *)
Definition getitem (s : t) (i : nat) : result (option Z) :=
  match to_list s !! i with
  | Some v => Ok v
  | None => Raise IndexError
  end.

#[global] Instance eq_dec : EqDecision t.
Proof. solve_decision. Defined.

Definition to_tuple (s : t) :=
  (max_health s, max_stamina s, max_mana s, strength s, agility s,
   acumen s, armor s, magical_resistance s).

Definition of_tuple
    (p : option Z * option Z * option Z * option Z * option Z * option Z
         * option Z * option Z) : t :=
  let '(a, b, c, d, e, f, g, h) := p in mk a b c d e f g h.

#[global] Instance countable : Countable t.
Proof. apply (inj_countable' to_tuple of_tuple). by intros []. Defined.

End Stats.

(** ** Action and Item *)

Module Action.

(** [effects] is a dictionary whose structure the program leaves open; it
    is kept as the list of its entries. *)
Record t : Type := mk {
  name : string;
  action_type : string;
  description : string;
  base_damage : Z;
  damage_type : string;
  effects : list (string * Z)
}.

Definition get_damage (a : t) : Z := base_damage a.

(** [hash(a)] hashes the fields of the tuple; [effects] is a [dict], which
    has no hash, so no [Action] can be hashed. *)
Definition hashable (a : t) : bool := false.

#[global] Instance eq_dec : EqDecision t.
Proof. solve_decision. Defined.

Definition to_tuple (a : t) :=
  (name a, action_type a, description a, base_damage a, damage_type a,
   effects a).

Definition of_tuple
    (p : string * string * string * Z * string * list (string * Z)) : t :=
  let '(a, b, c, d, e, f) := p in mk a b c d e f.

#[global] Instance countable : Countable t.
Proof. apply (inj_countable' to_tuple of_tuple). by intros []. Defined.

End Action.

Module Item.

(** Items are keys of the backpack [Counter]: they are compared and hashed
    field by field, as every [NamedTuple] is (see [hashable] below). *)
Record t : Type := mk {
  name : string;
  description : string;
  tags : list string;
  weight : Z;
  max_durability : Z;
  durability : Z;
  stat_bonus : Stats.t;
  actions : list Action.t;
  uuid : string
}.

(** [hash(i)] hashes the fields of the tuple: strings, integers, the tuple
    of tags and the [Stats] sheet have a hash, so an item has one exactly
    when every action in [actions] has, that is, when it has no action. An
    item without a hash cannot be a key of the backpack. *)
Definition hashable (i : t) : bool := forallb Action.hashable (actions i).

#[global] Instance eq_dec : EqDecision t.
Proof. solve_decision. Defined.

Definition to_tuple (i : t) :=
  (name i, description i, tags i, weight i, max_durability i, durability i,
   stat_bonus i, actions i, uuid i).

Definition of_tuple
    (p : string * string * list string * Z * Z * Z * Stats.t
         * list Action.t * string) : t :=
  let '(a, b, c, d, e, f, g, h, i) := p in mk a b c d e f g h i.

#[global] Instance countable : Countable t.
Proof. apply (inj_countable' to_tuple of_tuple). by intros []. Defined.

End Item.

(** ** The two monads of the embedding *)

(** Calls that raise or return, without a store. *)
#[global] Instance result_ret : MRet result := fun _ a => Ok a.
#[global] Instance result_bind : MBind result := fun _ _ f r =>
  match r with
  | Ok a => f a
  | Raise e => Raise e
  end.

(** Methods of a mutable object of type [S]: the store is threaded through
    the call and survives an exception, since Python undoes nothing when it
    unwinds. *)
Definition method (S A : Type) : Type := S -> result A * S.

#[global] Instance method_ret {S} : MRet (method S) := fun _ a s => (Ok a, s).
#[global] Instance method_bind {S} : MBind (method S) := fun _ _ f m s =>
  match m s with
  | (Ok a, s') => f a s'
  | (Raise e, s') => (Raise e, s')
  end.

Definition raise {S A} (e : exn) : method S A := fun s => (Raise e, s).

(** [assert b]. *)
Definition assert {S} (b : bool) : method S unit :=
  if b then mret tt else raise AssertionError.

(** ** Inventory *)

Module Inventory.

Record t : Type := mk {
  equipment : gmap string (option Item.t);
  backpack : gmap Item.t Z
}.

Definition slots : list string :=
  ["mainhand"; "offhand"; "head"; "body"; "feet"].

(** The units of [item] a [Counter] holds: a missing key counts [0], and an
    item without a hash is a key of no [Counter]. *)
Definition count (bp : gmap Item.t Z) (item : Item.t) : Z :=
  if Item.hashable item then default 0 (bp !! item) else 0.

(** [self.equipment[slot]]. *)
Definition equipment_get (slot : string) : method t (option Item.t) :=
  fun self =>
    match equipment self !! slot with
    | Some v => (Ok v, self)
    | None => (Raise KeyError, self)
    end.

(** [self.equipment[slot] = v]. *)
Definition equipment_set (slot : string) (v : option Item.t)
  : method t unit :=
  fun self => (Ok tt, mk (<[slot := v]> (equipment self)) (backpack self)).

(** [self.backpack[item]]: the key is hashed first, a [TypeError] for an
    item without a hash; a missing key reads [0] and is not inserted. *)
Definition backpack_get (item : Item.t) : method t Z :=
  fun self =>
    if Item.hashable item then (Ok (count (backpack self) item), self)
    else (Raise TypeError, self).

(** [self.backpack[item] = n], the key hashed first as well. *)
Definition backpack_set (item : Item.t) (n : Z) : method t unit :=
  fun self =>
    if Item.hashable item then
      (Ok tt, mk (equipment self) (<[item := n]> (backpack self)))
    else (Raise TypeError, self).

(** [Inventory.new()]. *)
Definition new : t :=
  mk (foldl (fun equipment slot => <[slot := None]> equipment) ∅ slots) ∅.

(** [add(item, count=1)]. *)
Definition add (item : Item.t) (count : Z) : method t unit :=
  assert (count >=? 0) ;;
  n ← backpack_get item;
  backpack_set item (n + count).

(** [remove(item, count=1)]. *)
Definition remove (item : Item.t) (count : Z) : method t unit :=
  assert (count >=? 0) ;;
  n ← backpack_get item;
  if n <? count then raise (ValueError NotEnough)
  else
    n ← backpack_get item;
    backpack_set item (n - count).

(** [unequip(slot)]. *)
Definition unequip (slot : string) : method t unit :=
  if negb (bool_decide (slot ∈ slots)) then
    raise (ValueError SlotDoesNotExist)
  else
    cur ← equipment_get slot;
    match cur with
    | None => raise (ValueError SlotIsEmpty)
    | Some item =>
        equipment_set slot None ;;
        add item 1
    end.

(** [equip(slot, item)]. *)
Definition equip (slot : string) (item : Item.t) : method t unit :=
  if negb (bool_decide ("equippable" ∈ Item.tags item)) then
    raise (ValueError NotEquippable)
  else if negb (bool_decide (slot ∈ slots)) then
    raise (ValueError SlotDoesNotExist)
  else
    cur ← equipment_get slot;
    (if bool_decide (cur ≠ None) then unequip slot else mret tt) ;;
    remove item 1 ;;
    equipment_set slot (Some item).

(** [use(item)]. *)
Definition use (item : Item.t) : method t unit :=
  n ← backpack_get item;
  if n >? 0 then remove item 1
  else raise (ValueError NotAny).

(** The calls a client can make, and the run of a sequence of them; a call
    that raises leaves the store as the exception found it, and the run
    goes on from there. *)
Inductive call : Type :=
  | Add (item : Item.t) (count : Z)
  | Remove (item : Item.t) (count : Z)
  | Equip (slot : string) (item : Item.t)
  | Unequip (slot : string)
  | Use (item : Item.t).

Definition exec (c : call) : method t unit :=
  match c with
  | Add item count => add item count
  | Remove item count => remove item count
  | Equip slot item => equip slot item
  | Unequip slot => unequip slot
  | Use item => use item
  end.

Definition run (cs : list call) (self : t) : t :=
  foldl (fun s c => snd (exec c s)) self cs.

(** The items of [Inventory._test]. *)
Definition item1 : Item.t :=
  Item.mk "item1" "lorem ipsum" ["item"; "equippable"] 1 100 100
          Stats.unset [] "UUID".
Definition item2 : Item.t :=
  Item.mk "item2" "Poland" ["item"] 1 100 100 Stats.unset [] "UUID".
Definition item3 : Item.t :=
  Item.mk "item3" "Ave Caesar" ["item"; "equippable"] 1 100 100
          Stats.unset [] "UUID".

End Inventory.

(** ** DamageInstance *)

Module DamageInstance.

(** A [float]: a finite one is the rational it denotes. *)
Inductive float : Type :=
  | Finite (q : Q)
  | Infinity (negative : bool)
  | NaN.

Record t : Type := mk {
  damage : float;
  damage_type : string;
  effects : list (string * Z)
}.

(** Rounding toward zero: the quotient of numerator by denominator that
    drops the fractional part. *)
Definition trunc (q : Q) : Z := Z.quot (Qnum q) (Zpos (Qden q)).

(** [int(x)] for a float [x]: the fractional part is dropped. *)
Definition int (x : float) : result Z :=
  match x with
  | Finite q => Ok (trunc q)
  | Infinity _ => Raise OverflowError
  | NaN => Raise (ValueError CannotConvertNaN)
  end.

(** [math.floor]: the greatest integer not exceeding [q]. *)
Definition floor (q : Q) : Z := Qfloor q.

End DamageInstance.

(** ** Character *)

Module Character.

(** Every field defaults to [None]. *)
Record t : Type := mk {
  name : option string;
  sprite_sheet : option (list (string * string));
  is_player : option bool;
  is_alive : option bool;
  base : option Stats.t;
  bonuses : option (list (string * Stats.t));   (* uuid -> Stats, in insertion order *)
  current : option Stats.t;
  health : option Z;
  stamina : option Z;
  mana : option Z;
  inventory : option Inventory.t;
  actions : option (list Action.t);
  effects : option (list (string * Z))
}.

(** [Character(health=h, is_alive=a)], as built by [hit]. *)
Definition with_health_is_alive (h : option Z) (a : option bool) : t :=
  mk None None None a None None None h None None None None None.

(** [Character.new(name, sprite_sheet, is_player, base_stats, actions,
    initial_effects)]. *)
Definition new (name : string) (sprite_sheet : list (string * string))
    (is_player : bool) (base_stats : Stats.t) (actions : list Action.t)
    (initial_effects : list (string * Z)) : t :=
  mk (Some name) (Some sprite_sheet) (Some is_player) (Some true)
     (Some base_stats) (Some []) (Some base_stats)
     (Stats.max_health base_stats) (Stats.max_stamina base_stats)
     (Stats.max_mana base_stats)
     (Some Inventory.new) (Some actions) (Some initial_effects).

(** [Character.modify(self, changes)]: the loop over [zip(self, changes)]
    keeps, field by field, the old value unless the new one is set; the
    fields have different types, so the loop is unrolled. *)
Definition modify (self changes : t) : t :=
  mk (Stats.pick (name self, name changes))
     (Stats.pick (sprite_sheet self, sprite_sheet changes))
     (Stats.pick (is_player self, is_player changes))
     (Stats.pick (is_alive self, is_alive changes))
     (Stats.pick (base self, base changes))
     (Stats.pick (bonuses self, bonuses changes))
     (Stats.pick (current self, current changes))
     (Stats.pick (health self, health changes))
     (Stats.pick (stamina self, stamina changes))
     (Stats.pick (mana self, mana changes))
     (Stats.pick (inventory self, inventory changes))
     (Stats.pick (actions self, actions changes))
     (Stats.pick (effects self, effects changes)).

(** *** Attribute access by name *)

(** The values the data attributes of a [Character] hold. *)
Inductive value : Type :=
  | VNone
  | VStr (s : string)
  | VBool (b : bool)
  | VInt (n : Z)
  | VStats (s : Stats.t)
  | VSprites (d : list (string * string))
  | VBonuses (d : list (string * Stats.t))
  | VInventory (i : Inventory.t)
  | VActions (l : list Action.t)
  | VEffects (d : list (string * Z)).

Definition opt {A} (inj : A -> value) (o : option A) : value :=
  match o with
  | Some a => inj a
  | None => VNone
  end.

(** The data attributes, under the names the class declares. The methods
    ([new], [modify], [update_stats], [hit], [_test] and those every
    [NamedTuple] has) are attributes too; they are left out. Python names
    are case-sensitive. *)
Definition attributes (self : t) : list (string * value) :=
  [("name", opt VStr (name self));
   ("sprite_sheet", opt VSprites (sprite_sheet self));
   ("is_player", opt VBool (is_player self));
   ("is_alive", opt VBool (is_alive self));
   ("base", opt VStats (base self));
   ("bonuses", opt VBonuses (bonuses self));
   ("current", opt VStats (current self));
   ("health", opt VInt (health self));
   ("stamina", opt VInt (stamina self));
   ("mana", opt VInt (mana self));
   ("inventory", opt VInventory (inventory self));
   ("actions", opt VActions (actions self));
   ("effects", opt VEffects (effects self))].

(** [self.<attr>]. *)
Definition getattr (self : t) (attr : string) : result value :=
  match list_find (fun entry => fst entry = attr) (attributes self) with
  | Some (_, (_, v)) => Ok v
  | None => Raise AttributeError
  end.

(** Iterating over an attribute value that is a [Stats] sheet; [None] is
    not iterable. (The other values are not sheets; iterating over them is
    left as a [TypeError].) *)
Definition iter (v : value) : result (list (option Z)) :=
  match v with
  | VStats s => Ok (Stats.to_list s)
  | _ => Raise TypeError
  end.

(** [d.values()] for the attribute [bonuses], which holds the dictionary of
    bonuses or [None]; [None] has no [values]. *)
Definition values (v : value) : result (list Stats.t) :=
  match v with
  | VBonuses d => Ok (map snd d)
  | _ => Raise AttributeError
  end.

(** [stat + b] on values that may be [None]: only two integers add. *)
Definition plus (stat b : option Z) : result (option Z) :=
  match stat, b with
  | Some x, Some y => Ok (Some (x + y))
  | _, _ => Raise TypeError
  end.

(** The inner loop of [update_stats]:
    [for bonus in bonuses: stat += bonus[i]]. *)
Fixpoint add_bonuses (i : nat) (stat : option Z) (bonuses : list Stats.t)
  : result (option Z) :=
  match bonuses with
  | [] => Ok stat
  | bonus :: rest =>
      b ← Stats.getitem bonus i;
      stat ← plus stat b;
      add_bonuses i stat rest
  end.

(** The outer loop, over [enumerate(...)] from index [i] on. *)
Fixpoint each_stat (self : t) (i : nat) (stats : list (option Z))
  : result (list (option Z)) :=
  match stats with
  | [] => Ok []
  | stat :: rest =>
      bonuses ← getattr self "bonuses";
      bonuses ← values bonuses;
      stat ← add_bonuses i stat bonuses;
      new_stats ← each_stat self (S i) rest;
      Ok (stat :: new_stats)
  end.

(** [update_stats(self)]; the sheet it iterates over is [self.BASE]. *)
Definition update_stats (self : t) : result Stats.t :=
  BASE ← getattr self "BASE";
  stats ← iter BASE;
  new_stats ← each_stat self 0 stats;
  Stats.of_list new_stats.

(** [self.health - damage_taken]. *)
Definition minus (health : option Z) (damage_taken : Z) : result Z :=
  match health with
  | Some h => Ok (h - damage_taken)
  | None => Raise TypeError
  end.

(** [self.current.max_health]: [None] has no attribute [max_health]. *)
Definition current_max_health (self : t) : result (option Z) :=
  match current self with
  | Some st => Ok (Stats.max_health st)
  | None => Raise AttributeError
  end.

(** [health > m]: an integer does not compare with [None]. *)
Definition gt (health : Z) (m : option Z) : result bool :=
  match m with
  | Some m => Ok (health >? m)
  | None => Raise TypeError
  end.

(** [hit(self, attack)]. The first [if] assigns both [health] and
    [is_alive]; the second [if] is not an [else] branch of the first. *)
Definition hit (self : t) (attack : DamageInstance.t) : result (t * Z) :=
  damage_taken ← DamageInstance.int (DamageInstance.damage attack);
  health ← minus (health self) damage_taken;
  let is_alive := is_alive self in
  let dead := health <=? 0 in
  let health := if dead then 0 else health in
  let is_alive := if dead then Some false else is_alive in
  max_health ← current_max_health self;
  above ← gt health max_health;
  let health := if (above : bool) then max_health else Some health in
  Ok (modify self (with_health_is_alive health is_alive), damage_taken).

End Character.

(** ** The rest of [common.py] *)

(** *** Action.create_damage_instance *)

(** The methods an [Action] has: its own, and those every [NamedTuple]
    brings. *)
Inductive action_method : Type :=
  | GetDamage
  | CreateDamageInstance
  | Repr
  | Builtin.

(** The values the attributes of an [Action] hold. *)
Inductive action_value : Type :=
  | AStr (s : string)
  | AInt (n : Z)
  | AEffects (d : list (string * Z))
  | AMethod (m : action_method).

(** The attributes of an [Action] under their names: the six fields, the
    three methods the class defines and the public ones of [NamedTuple] and
    [tuple]. (The other names Python answers to all start with two
    underscores.) *)
Definition action_attributes (self : Action.t) : list (string * action_value) :=
  [("name", AStr (Action.name self));
   ("action_type", AStr (Action.action_type self));
   ("description", AStr (Action.description self));
   ("base_damage", AInt (Action.base_damage self));
   ("damage_type", AStr (Action.damage_type self));
   ("effects", AEffects (Action.effects self));
   ("get_damage", AMethod GetDamage);
   ("create_damage_instance", AMethod CreateDamageInstance);
   ("__repr__", AMethod Repr);
   ("_fields", AMethod Builtin);
   ("_field_defaults", AMethod Builtin);
   ("_make", AMethod Builtin);
   ("_replace", AMethod Builtin);
   ("_asdict", AMethod Builtin);
   ("count", AMethod Builtin);
   ("index", AMethod Builtin)].

(** [self.<attr>]. *)
Definition action_getattr (self : Action.t) (attr : string)
  : result action_value :=
  match list_find (fun entry => fst entry = attr) (action_attributes self) with
  | Some (_, (_, v)) => Ok v
  | None => Raise AttributeError
  end.

(** Calling an attribute without arguments, for a damage: [get_damage]
    answers the base damage; a value that is no method is not callable. (The
    other methods do not answer a number; their call is left as a
    [TypeError].) *)
Definition call_for_damage (self : Action.t) (v : action_value)
  : result DamageInstance.float :=
  match v with
  | AMethod GetDamage =>
      Ok (DamageInstance.Finite (inject_Z (Action.get_damage self)))
  | _ => Raise TypeError
  end.

(** [create_damage_instance(self)]: the damage is asked of [self.damage()]. *)
Definition create_damage_instance (self : Action.t) : result DamageInstance.t :=
  damage ← action_getattr self "damage";
  damage ← call_for_damage self damage;
  Ok (DamageInstance.mk damage (Action.damage_type self) (Action.effects self)).

(** *** Character.__repr__ *)

(** [str(x)] inside an f-string, for a value that may be [None]. *)
Definition str_of_name (o : option string) : string := default "None" o.

Definition str_of_int (o : option Z) : string :=
  match o with
  | Some n => pretty n
  | None => "None"
  end.

(** The loop of [__repr__]: the first action whose damage is positive ends
    it; when none is, the rendering has no damage. *)
Fixpoint repr_loop (name health : string) (actions : list Action.t) : string :=
  match actions with
  | [] => name +:+ " (♥ " +:+ health +:+ ")"
  | a :: rest =>
      if Action.get_damage a >? 0 then
        name +:+ " (♥ " +:+ health +:+ " / ¤ "
             +:+ pretty (Action.get_damage a) +:+ ")"
      else repr_loop name health rest
  end.

(** [Character.__repr__(self)]; [None] is not iterable. *)
Definition character_repr (self : Character.t) : result string :=
  match Character.actions self with
  | Some actions =>
      Ok (repr_loop (str_of_name (Character.name self))
                    (str_of_int (Character.health self)) actions)
  | None => Raise TypeError
  end.

(** *** move_toward *)

(** [move_toward(a, b, step=1)], on integers. *)
Definition move_toward (a b step : Z) : Z :=
  if b >=? a then Z.min (a + step) b else Z.max (a - step) b.


(** ** Auxiliary definitions and sample data *)

(** The field selectors of [Stats], in declaration order. *)
Definition stats_fields : list (Stats.t -> option Z) :=
  [Stats.max_health; Stats.max_stamina; Stats.max_mana; Stats.strength;
   Stats.agility; Stats.acumen; Stats.armor; Stats.magical_resistance].

(** A damage instance carrying the given amount. *)
Definition attack_of (x : DamageInstance.float) : DamageInstance.t :=
  DamageInstance.mk x "physical" [].

(** A damage instance of another type, with an effect. *)
Definition fire_attack (x : DamageInstance.float) : DamageInstance.t :=
  DamageInstance.mk x "fire" [("burn", 3)].

(** The sheet of [Character._test]. *)
Definition halo_stats : Stats.t :=
  Stats.mk (Some 8) (Some 16) (Some 4) (Some 8) (Some 6) (Some 4) (Some 2)
           (Some 4).

Definition john_halo : Character.t :=
  Character.new "John Halo" [] true halo_stats [] [].

(** A character with health 10 out of a maximum of 20. *)
Definition wounded_stats : Stats.t :=
  Stats.mk (Some 20) (Some 16) (Some 4) (Some 8) (Some 6) (Some 4) (Some 2)
           (Some 4).

Definition wounded : Character.t :=
  Character.modify (Character.new "Wounded" [] false wounded_stats [] [])
                   (Character.with_health_is_alive (Some 10) None).

(** The same character once dead. *)
Definition fallen : Character.t :=
  Character.modify wounded (Character.with_health_is_alive (Some 0) (Some false)).

(** A character created with a negative maximum health. *)
Definition imp_stats : Stats.t :=
  Stats.mk (Some (-5)) (Some 1) (Some 1) (Some 1) (Some 1) (Some 1) (Some 0)
           (Some 0).

Definition imp : Character.t := Character.new "Imp" [] false imp_stats [] [].

(** Inventories of the scenario of [Inventory._test]: [item1] worn on the
    head and none left in the backpack; and [item1] worn with a second one
    in the backpack. *)
Definition wearing_item1 : Inventory.t :=
  Inventory.run [Inventory.Add Inventory.item1 1;
                 Inventory.Equip "head" Inventory.item1] Inventory.new.

Definition wearing_item1_spare : Inventory.t :=
  Inventory.run [Inventory.Add Inventory.item1 2;
                 Inventory.Equip "head" Inventory.item1] Inventory.new.

(** An inventory whose [Counter] was given a negative count. *)
Definition overdrawn : Inventory.t :=
  Inventory.mk (Inventory.equipment Inventory.new)
               {[ Inventory.item2 := -1 ]}.

(** The backpack holds no negative count. *)
Definition counts_nonneg (s : Inventory.t) : Prop :=
  forall item : Item.t, 0 <= Inventory.count (Inventory.backpack s) item.

(** The number of slots that hold [item], and the units of [item] the
    inventory has in all, worn or carried. *)
Definition worn_in (equipment : gmap string (option Item.t))
    (slots : list string) (item : Item.t) : Z :=
  foldr (fun slot n =>
           (if decide (equipment !! slot = Some (Some item)) then 1 else 0) + n)
        0 slots.

Definition units (s : Inventory.t) (item : Item.t) : Z :=
  Inventory.count (Inventory.backpack s) item
  + worn_in (Inventory.equipment s) Inventory.slots item.

(** Every item a slot wears can be hashed. *)
Definition wears_hashable (s : Inventory.t) : Prop :=
  forall (slot : string) (old : Item.t),
    Inventory.equipment s !! slot = Some (Some old) ->
    Item.hashable old = true.

(** The slot a call names, if it names one. *)
Definition slot_of (c : Inventory.call) : option string :=
  match c with
  | Inventory.Equip slot _ | Inventory.Unequip slot => Some slot
  | _ => None
  end.

(** An item that carries an action, and so cannot be hashed; an inventory
    built with it on the head. *)
Definition blade : Item.t :=
  Item.mk "blade" "It cuts" ["item"; "equippable"] 2 100 100 Stats.unset
          [Action.mk "Slash" "physical" "A wide cut" 7 "slashing" []] "UUID".

Definition wearing_blade : Inventory.t :=
  Inventory.mk (<["head" := Some blade]> (Inventory.equipment Inventory.new))
               ∅.

(** Two actions, one that deals damage and one that does not. *)
Definition sword : Action.t :=
  Action.mk "Slash" "physical" "A wide cut" 7 "slashing" [].

Definition taunt : Action.t :=
  Action.mk "Taunt" "social" "Words only" 0 "none" [].

(** * Properties *)

(** ** The scenario of [Inventory._test] *)

Example test_scenario :
  let ti := Inventory.run
              [Inventory.Add Inventory.item1 1; Inventory.Add Inventory.item2 10;
               Inventory.Add Inventory.item1 0;
               Inventory.Remove Inventory.item2 3] Inventory.new in
  Inventory.count (Inventory.backpack ti) Inventory.item1 = 1 /\
  Inventory.count (Inventory.backpack ti) Inventory.item2 = 7.
Proof. vm_compute. split; reflexivity. Qed.

(** An item with an action is refused by the backpack: [add] raises
    [TypeError] on a new inventory and leaves it as it is; worn on a slot of
    an inventory built by hand, [unequip] clears the slot and then raises,
    so the item is in neither place. *)
Example unhashable_item_scenario :
  Inventory.add blade 1 Inventory.new = (Raise TypeError, Inventory.new) /\
  fst (Inventory.unequip "head" wearing_blade) = Raise TypeError /\
  Inventory.equipment (snd (Inventory.unequip "head" wearing_blade)) !! "head"
  = Some None /\
  Inventory.count
    (Inventory.backpack (snd (Inventory.unequip "head" wearing_blade))) blade
  = 0.
Proof. vm_compute. repeat split. Qed.

(** ** Stats.modify *)

Section StatsModify.

Import Stats.

(** The loop of [modify], unrolled: the result is built field by field. *)
Lemma modify_unrolled (s c : Stats.t) :
  modify s c =
  Ok (mk (pick (max_health s, max_health c))
         (pick (max_stamina s, max_stamina c))
         (pick (max_mana s, max_mana c))
         (pick (strength s, strength c))
         (pick (agility s, agility c))
         (pick (acumen s, acumen c))
         (pick (armor s, armor c))
         (pick (magical_resistance s, magical_resistance c))).
Proof. reflexivity. Qed.

Lemma pick_unset {A} (old : option A) : pick (old, None) = old.
Proof. reflexivity. Qed.

Lemma pick_pick {A} (a b c : option A) :
  pick (pick (a, b), c) = pick (a, pick (b, c)).
Proof. by destruct c, b. Qed.

(** C6. For every sheet [s] and every sheet of changes [c], [s.modify(c)]
    returns a sheet each field of which is the field of [c] when [c] sets
    it and the field of [s] otherwise; and when [c] sets no field, the
    result is [s]. The sheets are immutable values, and [modify] is a
    function of them: [s] is the same before and after. *)
Theorem stats_modify_overrides (s c : Stats.t) :
  (exists r : Stats.t,
      modify s c = Ok r /\
      Forall (fun f => f r = match f c with Some v => Some v | None => f s end)
             stats_fields) /\
  modify s unset = Ok s.
Proof.
  split.
  - eexists. split; [apply modify_unrolled |].
    unfold stats_fields. rewrite !Forall_cons, Forall_nil. simpl.
    repeat split;
      match goal with |- pick (_, ?x) = _ => by destruct x end.
  - rewrite modify_unrolled. by destruct s.
Qed.

(** C7. [modify] is associative: patching [a] with [b] and then with [c]
    gives the sheet that patching [a] with the merge [b.modify(c)] gives. *)
Theorem stats_modify_assoc (a b c : Stats.t) :
  exists r : Stats.t,
    (ab ← modify a b; modify ab c) = Ok r /\
    (bc ← modify b c; modify a bc) = Ok r.
Proof.
  rewrite !modify_unrolled. unfold mbind, result_bind.
  rewrite !modify_unrolled.
  cbn [max_health max_stamina max_mana strength agility acumen armor
       magical_resistance].
  rewrite !pick_pick. eauto.
Qed.

End StatsModify.

(** ** Character.hit *)

Section Hit.

Import Character.

(** The snapshot [hit] builds differs from [self] in two fields only. *)
Lemma modify_with_health_is_alive (c : Character.t) (h : option Z)
    (a : option bool) :
  modify c (with_health_is_alive h a) =
  mk (name c) (sprite_sheet c) (is_player c)
     (Stats.pick (is_alive c, a))
     (base c) (bonuses c) (current c)
     (Stats.pick (health c, h))
     (stamina c) (mana c) (inventory c) (actions c) (effects c).
Proof. reflexivity. Qed.

(** What [hit] computes when nothing raises: the damage is finite, the
    health and the maximum health are set. *)
Lemma hit_finite (c : Character.t) (attack : DamageInstance.t) (q : Q)
    (h m : Z) (st : Stats.t) :
  DamageInstance.damage attack = DamageInstance.Finite q ->
  health c = Some h ->
  current c = Some st ->
  Stats.max_health st = Some m ->
  let n := DamageInstance.trunc q in
  let dead := h - n <=? 0 in
  let h1 := if dead then 0 else h - n in
  hit c attack =
  Ok (modify c (with_health_is_alive
                  (Some (if h1 >? m then m else h1))
                  (if dead then Some false else is_alive c)),
      n).
Proof.
  intros Hq Hh Hc Hm. unfold hit, current_max_health.
  rewrite Hq, Hh, Hc, Hm. simpl.
  by destruct (_ >? m).
Qed.

(** An integer passed as damage is its own truncation. *)
Lemma trunc_inject_Z (d : Z) : DamageInstance.trunc (inject_Z d) = d.
Proof. unfold DamageInstance.trunc. simpl. apply Z.quot_1_r. Qed.

Lemma trunc_nonneg (q : Q) :
  (0 <= q)%Q -> DamageInstance.trunc q = Qfloor q.
Proof.
  destruct q as [n d]. unfold Qle, DamageInstance.trunc. simpl.
  intros Hn. apply Z.quot_div_nonneg; lia.
Qed.

Lemma trunc_nonpos (q : Q) :
  (q <= 0)%Q -> DamageInstance.trunc q = Qceiling q.
Proof.
  destruct q as [n d]. unfold Qle, Qceiling, DamageInstance.trunc. simpl.
  intros Hn.
  rewrite <- (Z.opp_involutive n) at 1.
  rewrite Z.quot_opp_l by lia.
  f_equal. apply Z.quot_div_nonneg; lia.
Qed.

(** C3, as the code has it. For a damage instance of any type and effects
    whose damage is finite, [hit] returns as damage dealt the damage rounded
    toward zero, which is what [int] does: it is the floor of the damage
    when the damage is not negative, its ceiling when it is not positive,
    and therefore its floor exactly when the damage is not negative or is
    integral (floor and ceiling agree). *)
Theorem hit_damage_rounds_toward_zero (c : Character.t)
    (attack : DamageInstance.t) (q : Q) (h m : Z) (st : Stats.t) :
  DamageInstance.damage attack = DamageInstance.Finite q ->
  health c = Some h ->
  current c = Some st ->
  Stats.max_health st = Some m ->
  exists c' : Character.t,
    hit c attack = Ok (c', DamageInstance.trunc q) /\
    ((0 <= q)%Q -> DamageInstance.trunc q = DamageInstance.floor q) /\
    ((q <= 0)%Q -> DamageInstance.trunc q = Qceiling q) /\
    (DamageInstance.trunc q = DamageInstance.floor q <->
     (0 <= q)%Q \/ Qfloor q = Qceiling q).
Proof.
  intros Hq Hh Hc Hm.
  eexists. split; [by eapply hit_finite |].
  unfold DamageInstance.floor.
  split; [apply trunc_nonneg |]. split; [apply trunc_nonpos |].
  split.
  - intros Heq. destruct (Qlt_le_dec q 0) as [Hlt | Hle]; [right | by left].
    rewrite <- Heq. apply trunc_nonpos. by apply Qlt_le_weak.
  - intros [Hle | Heq]; [by apply trunc_nonneg |].
    destruct (Qlt_le_dec q 0) as [Hlt | Hle]; [| by apply trunc_nonneg].
    rewrite Heq. apply trunc_nonpos. by apply Qlt_le_weak.
Qed.

Lemma hit_damage_rounds_toward_zero_witness :
  DamageInstance.damage (fire_attack (DamageInstance.Finite (-5 # 2)))
  = DamageInstance.Finite (-5 # 2) /\
  Character.health wounded = Some 10 /\
  Character.current wounded = Some wounded_stats /\
  Stats.max_health wounded_stats = Some 20 /\
  exists c' : Character.t,
    hit wounded (fire_attack (DamageInstance.Finite (-5 # 2)))
    = Ok (c', DamageInstance.trunc (-5 # 2)) /\
    ((0 <= -5 # 2)%Q ->
     DamageInstance.trunc (-5 # 2) = DamageInstance.floor (-5 # 2)) /\
    ((-5 # 2 <= 0)%Q -> DamageInstance.trunc (-5 # 2) = Qceiling (-5 # 2)) /\
    (DamageInstance.trunc (-5 # 2) = DamageInstance.floor (-5 # 2) <->
     (0 <= -5 # 2)%Q \/ Qfloor (-5 # 2) = Qceiling (-5 # 2)).
Proof.
  repeat (split; [reflexivity |]).
  apply (hit_damage_rounds_toward_zero
           wounded (fire_attack (DamageInstance.Finite (-5 # 2)))
           (-5 # 2) 10 20 wounded_stats);
    reflexivity.
Defined.

(** C3 as stated fails: a damage of [-2.5] is dealt as [-2], while its
    floor is [-3]. *)
Lemma hit_damage_is_not_floor :
  exists (c' : Character.t) (n : Z),
    hit wounded (attack_of (DamageInstance.Finite (-5 # 2))) = Ok (c', n) /\
    n = -2 /\
    DamageInstance.floor (-5 # 2) = -3 /\
    n <> DamageInstance.floor (-5 # 2).
Proof.
  eexists _, _. split; [reflexivity |].
  split; [reflexivity |]. split; [reflexivity |]. discriminate.
Qed.

(** C4, as the code has it. For a living character with health [h] and a
    maximum health [m], and a damage instance of any type and effects whose
    damage is the integer [d]: [hit] returns [d] as damage dealt; when
    [h - d <= 0] the snapshot is dead and its health is the smaller of [0]
    and [m], which is [0] whenever [m] is not negative; when [h - d] exceeds
    [m] the health is [m]; otherwise it is [h - d]; and as long as [h - d]
    is positive the character stays alive. *)
Theorem hit_clamps_health (c : Character.t) (attack : DamageInstance.t)
    (h d m : Z) (st : Stats.t) :
  is_alive c = Some true ->
  DamageInstance.damage attack = DamageInstance.Finite (inject_Z d) ->
  health c = Some h ->
  current c = Some st ->
  Stats.max_health st = Some m ->
  exists c' : Character.t,
    hit c attack = Ok (c', d) /\
    (h - d <= 0 ->
     is_alive c' = Some false /\
     health c' = Some (Z.min 0 m) /\
     (0 <= m -> health c' = Some 0)) /\
    (m < h - d -> health c' = Some m) /\
    (0 < h - d <= m -> health c' = Some (h - d)) /\
    (0 < h - d -> is_alive c' = Some true).
Proof.
  intros Ha Hq Hh Hc Hm.
  rewrite (hit_finite c attack (inject_Z d) h m st Hq Hh Hc Hm).
  rewrite trunc_inject_Z. cbv zeta.
  eexists. split; [reflexivity |].
  rewrite modify_with_health_is_alive. simpl. rewrite Ha.
  destruct (Z.leb_spec (h - d) 0) as [Hle | Hgt].
  - destruct (Z.gtb_spec 0 m);
      repeat split; intros; try lia; (done || (f_equal; lia)).
  - destruct (Z.gtb_spec (h - d) m);
      repeat split; intros; try lia; (done || (f_equal; lia)).
Qed.

Lemma hit_clamps_health_witness :
  is_alive wounded = Some true /\
  DamageInstance.damage (fire_attack (DamageInstance.Finite (inject_Z 15)))
  = DamageInstance.Finite (inject_Z 15) /\
  health wounded = Some 10 /\
  current wounded = Some wounded_stats /\
  Stats.max_health wounded_stats = Some 20 /\
  exists c' : Character.t,
    hit wounded (fire_attack (DamageInstance.Finite (inject_Z 15)))
    = Ok (c', 15) /\
    (10 - 15 <= 0 ->
     is_alive c' = Some false /\
     health c' = Some (Z.min 0 20) /\
     (0 <= 20 -> health c' = Some 0)) /\
    (20 < 10 - 15 -> health c' = Some 20) /\
    (0 < 10 - 15 <= 20 -> health c' = Some (10 - 15)) /\
    (0 < 10 - 15 -> is_alive c' = Some true).
Proof.
  repeat (split; [reflexivity |]).
  apply (hit_clamps_health
           wounded (fire_attack (DamageInstance.Finite (inject_Z 15)))
           10 15 20 wounded_stats);
    reflexivity.
Defined.

(** C4 as stated fails when the maximum health is negative: the second
    test of [hit] is made also after the health was set to [0], and lowers
    it to the maximum. The character [Character.new] makes from a sheet
    with maximum health [-5] is alive with health [-5]; hit for [3] it
    ends with health [-5], not [0]. *)
Lemma hit_negative_max_health :
  is_alive imp = Some true /\
  health imp = Some (-5) /\
  -5 - 3 <= 0 /\
  exists c' : Character.t,
    hit imp (attack_of (DamageInstance.Finite (inject_Z 3))) = Ok (c', 3) /\
    health c' = Some (-5) /\
    health c' <> Some 0.
Proof.
  split; [reflexivity |]. split; [reflexivity |]. split; [lia |].
  eexists. split; [reflexivity |]. split; [reflexivity | discriminate].
Qed.

(** C5. A dead character stays dead: whatever the damage, a snapshot that
    [hit] returns for a character whose [is_alive] is [False] has
    [is_alive = False]; and [hit] does return one whenever the damage is
    finite and the health and the maximum health are set. Healing, a
    negative damage, is one such case. *)
Theorem hit_never_revives (c : Character.t) (attack : DamageInstance.t) :
  is_alive c = Some false ->
  (forall (c' : Character.t) (n : Z),
      hit c attack = Ok (c', n) -> is_alive c' = Some false) /\
  (forall (q : Q) (h m : Z) (st : Stats.t),
      DamageInstance.damage attack = DamageInstance.Finite q ->
      health c = Some h ->
      current c = Some st ->
      Stats.max_health st = Some m ->
      exists (c' : Character.t) (n : Z),
        hit c attack = Ok (c', n) /\ is_alive c' = Some false).
Proof.
  intros Ha.
  assert (Hret : forall c' n,
             hit c attack = Ok (c', n) -> is_alive c' = Some false).
  { intros c' n. unfold hit.
    destruct (DamageInstance.int _) as [k |]; [| discriminate].
    simpl. destruct (minus (health c) k) as [h0 |]; [| discriminate].
    destruct (current_max_health c) as [mh |]; [| discriminate].
    simpl. destruct (gt _ mh) as [above |]; [| discriminate].
    simpl. intros [= <- _]. rewrite modify_with_health_is_alive. simpl.
    rewrite Ha. by destruct (h0 <=? 0). }
  split; [exact Hret |].
  intros q h m st Hq Hh Hc Hm.
  eexists _, _. split; [by eapply hit_finite |].
  eapply Hret. by eapply hit_finite.
Qed.

Lemma hit_never_revives_witness :
  is_alive fallen = Some false /\
  exists (c' : Character.t) (n : Z),
    hit fallen (attack_of (DamageInstance.Finite (inject_Z (-5))))
    = Ok (c', n) /\
    is_alive c' = Some false.
Proof.
  split; [reflexivity |].
  apply (proj2 (hit_never_revives
                  fallen (attack_of (DamageInstance.Finite (inject_Z (-5))))
                  eq_refl)
               (inject_Z (-5)) 0 20 wounded_stats); reflexivity.
Defined.

End Hit.

(** ** Character.update_stats *)

Section UpdateStats.

Import Character.

(** No data attribute is called [BASE]; the field is [base]. *)
Lemma getattr_BASE (c : Character.t) : getattr c "BASE" = Raise AttributeError.
Proof. reflexivity. Qed.

Lemma getattr_base (c : Character.t) :
  getattr c "base" = Ok (opt VStats (base c)).
Proof. reflexivity. Qed.

(** The accumulation of the inner loop adds integers only: a bonus whose
    field is unset stops it with a [TypeError]. *)
Lemma add_bonuses_unset_field (i : nat) (x : Z) (bonus : Stats.t)
    (rest : list Stats.t) :
  Stats.getitem bonus i = Ok None ->
  add_bonuses i (Some x) (bonus :: rest) = Raise TypeError.
Proof. intros Hb. simpl. by rewrite Hb. Qed.

(** C2, evaluated on the code. [update_stats] reads [self.BASE], which no
    character has: it raises [AttributeError] for every character, also
    for the one of [Character._test], whose base stats are all set and
    whose bonuses are empty, where the sheet to return is the base one. *)
Theorem update_stats_raises_AttributeError :
  (forall c : Character.t, update_stats c = Raise AttributeError) /\
  base john_halo = Some halo_stats /\
  bonuses john_halo = Some [] /\
  update_stats john_halo <> Ok halo_stats.
Proof.
  split; [intros c; reflexivity |].
  split; [reflexivity |]. split; [reflexivity | discriminate].
Qed.

End UpdateStats.

(** ** Inventory *)

Section InventoryFacts.

Import Inventory.

Ltac unfold_method :=
  unfold assert;
  unfold mbind, method_bind, mret, method_ret, raise,
    backpack_get, backpack_set, equipment_get, equipment_set;
  cbv beta iota.

(** *** Reading the counter after an assignment *)

Lemma count_unhashable (bp : gmap Item.t Z) (i : Item.t) :
  Item.hashable i = false -> count bp i = 0.
Proof. intros Hi. unfold count. by rewrite Hi. Qed.

Lemma count_positive_hashable (bp : gmap Item.t Z) (i : Item.t) :
  count bp i <> 0 -> Item.hashable i = true.
Proof. unfold count. by destruct (Item.hashable i). Qed.

Lemma count_insert (bp : gmap Item.t Z) (i j : Item.t) (n : Z) :
  Item.hashable i = true ->
  count (<[i := n]> bp) j = if decide (i = j) then n else count bp j.
Proof.
  intros Hi. unfold count. rewrite lookup_insert.
  destruct (decide (i = j)) as [<- |]; [| done]. by rewrite Hi.
Qed.

Lemma count_insert_eq (bp : gmap Item.t Z) (i : Item.t) (n : Z) :
  Item.hashable i = true -> count (<[i := n]> bp) i = n.
Proof. intros Hi. rewrite count_insert by done. by rewrite decide_True. Qed.

Lemma count_insert_ne (bp : gmap Item.t Z) (i j : Item.t) (n : Z) :
  i <> j -> count (<[i := n]> bp) j = count bp j.
Proof.
  intros Hne. unfold count. by rewrite lookup_insert_ne.
Qed.

(** *** The methods, call by call *)

Lemma add_eq (item : Item.t) (n : Z) (s : Inventory.t) :
  add item n s =
  if n >=? 0 then
    if Item.hashable item then
      (Ok tt,
       mk (equipment s) (<[item := count (backpack s) item + n]> (backpack s)))
    else (Raise TypeError, s)
  else (Raise AssertionError, s).
Proof.
  unfold add. unfold_method.
  destruct (n >=? 0); [| done]. by destruct (Item.hashable item).
Qed.

Lemma remove_eq (item : Item.t) (n : Z) (s : Inventory.t) :
  remove item n s =
  if n >=? 0 then
    if Item.hashable item then
      if count (backpack s) item <? n then (Raise (ValueError NotEnough), s)
      else
        (Ok tt,
         mk (equipment s)
            (<[item := count (backpack s) item - n]> (backpack s)))
    else (Raise TypeError, s)
  else (Raise AssertionError, s).
Proof.
  unfold remove. unfold_method.
  destruct (n >=? 0); [| done].
  destruct (Item.hashable item); [| done].
  by destruct (count (backpack s) item <? n).
Qed.

(** [unequip], case by case. The slot is cleared before the item is added
    to the backpack, so an item that cannot be hashed is lost to both. *)
Lemma unequip_eq (slot : string) (s : Inventory.t) :
  unequip slot s =
  if bool_decide (slot ∈ slots) then
    match equipment s !! slot with
    | None => (Raise KeyError, s)
    | Some None => (Raise (ValueError SlotIsEmpty), s)
    | Some (Some item) =>
        if Item.hashable item then
          (Ok tt,
           mk (<[slot := None]> (equipment s))
              (<[item := count (backpack s) item + 1]> (backpack s)))
        else
          (Raise TypeError, mk (<[slot := None]> (equipment s)) (backpack s))
    end
  else (Raise (ValueError SlotDoesNotExist), s).
Proof.
  unfold unequip. destruct (bool_decide (slot ∈ slots)); [| done].
  simpl. unfold_method.
  destruct (equipment s !! slot) as [[item |] |]; [| done | done].
  rewrite add_eq. simpl. by destruct (Item.hashable item).
Qed.

Lemma use_eq (item : Item.t) (s : Inventory.t) :
  use item s =
  if Item.hashable item then
    if count (backpack s) item >? 0 then remove item 1 s
    else (Raise (ValueError NotAny), s)
  else (Raise TypeError, s).
Proof.
  unfold use. unfold_method.
  destruct (Item.hashable item); [| done].
  by destruct (count (backpack s) item >? 0).
Qed.

(** [equip], case by case. On an occupied slot the previous item goes
    back to the backpack before the backpack is asked for [item]. *)
Lemma equip_eq (slot : string) (item : Item.t) (s : Inventory.t) :
  equip slot item s =
  if negb (bool_decide ("equippable" ∈ Item.tags item)) then
    (Raise (ValueError NotEquippable), s)
  else if negb (bool_decide (slot ∈ slots)) then
    (Raise (ValueError SlotDoesNotExist), s)
  else
    match equipment s !! slot with
    | None => (Raise KeyError, s)
    | Some None =>
        if Item.hashable item then
          if count (backpack s) item <? 1 then
            (Raise (ValueError NotEnough), s)
          else
            (Ok tt,
             mk (<[slot := Some item]> (equipment s))
                (<[item := count (backpack s) item - 1]> (backpack s)))
        else (Raise TypeError, s)
    | Some (Some old) =>
        if Item.hashable old then
          let bp := <[old := count (backpack s) old + 1]> (backpack s) in
          if Item.hashable item then
            if count bp item <? 1 then
              (Raise (ValueError NotEnough),
               mk (<[slot := None]> (equipment s)) bp)
            else
              (Ok tt,
               mk (<[slot := Some item]> (<[slot := None]> (equipment s)))
                  (<[item := count bp item - 1]> bp))
          else (Raise TypeError, mk (<[slot := None]> (equipment s)) bp)
        else
          (Raise TypeError, mk (<[slot := None]> (equipment s)) (backpack s))
    end.
Proof.
  unfold equip.
  destruct (bool_decide ("equippable" ∈ Item.tags item)); [| done].
  destruct (bool_decide (slot ∈ slots)) eqn:Hslot; [| done].
  simpl. unfold_method.
  destruct (equipment s !! slot) as [[old |] |] eqn:Hcur; [| | done].
  - rewrite bool_decide_eq_true_2 by done.
    rewrite unequip_eq, Hslot, Hcur.
    destruct (Item.hashable old); [| done].
    rewrite remove_eq. simpl.
    destruct (Item.hashable item); [| done].
    by destruct (count _ item <? 1).
  - rewrite bool_decide_eq_false_2 by (by intros H).
    rewrite remove_eq. simpl.
    destruct (Item.hashable item); [| done].
    by destruct (count _ item <? 1).
Qed.

(** *** Failed calls *)






(** On an occupied slot, a failed [equip] of an equippable item has
    already unequipped the previous one: the slot is empty and the previous
    item is counted in the backpack. *)
Lemma equip_raises_occupied (slot : string) (item old : Item.t)
    (s : Inventory.t) :
  "equippable" ∈ Item.tags item ->
  slot ∈ slots ->
  equipment s !! slot = Some (Some old) ->
  Item.hashable old = true ->
  raises (fst (equip slot item s)) ->
  snd (equip slot item s) = snd (unequip slot s) /\
  equipment (snd (equip slot item s)) !! slot = Some None /\
  count (backpack (snd (equip slot item s))) old
  = count (backpack s) old + 1.
Proof.
  intros Htag Hslot Hold Hhash. rewrite equip_eq, unequip_eq.
  rewrite !bool_decide_eq_true_2 by done. simpl. rewrite Hold, Hhash.
  destruct (Item.hashable item).
  - destruct (count _ item <? 1); [| done]. simpl. intros _.
    split; [done |].
    split; [apply lookup_insert_eq | by apply count_insert_eq].
  - simpl. intros _. split; [done |].
    split; [apply lookup_insert_eq | by apply count_insert_eq].
Qed.

(** C1, evaluated on the code. With [item1] on the head and no [item3] in
    the backpack, [equip("head", item3)] raises the [ValueError] of
    [remove], and by then [item1] has been taken off: the head slot is
    empty and the backpack counts one [item1] more than before the call. *)
Theorem equip_failure_unequips :
  equipment wearing_item1 !! "head" = Some (Some item1) /\
  count (backpack wearing_item1) item3 = 0 /\
  count (backpack wearing_item1) item1 = 0 /\
  fst (equip "head" item3 wearing_item1) = Raise (ValueError NotEnough) /\
  equipment (snd (equip "head" item3 wearing_item1)) !! "head" = Some None /\
  count (backpack (snd (equip "head" item3 wearing_item1))) item1 = 1.
Proof. vm_compute. repeat split. Qed.

(** *** Hot swap *)

(** C8, as the code has it. On a slot occupied by an item [A] that can be
    hashed (as every item that came out of the backpack can), equipping an
    equippable [B] the backpack has a unit of succeeds and leaves [B] in
    the slot; when [B] is another item than [A], the backpack counts one
    [A] more and one [B] less; when [B] is [A] itself, the unit that comes
    back is the one that leaves, and the count does not change. *)
Theorem equip_hot_swap (s : Inventory.t) (slot : string) (A B : Item.t) :
  slot ∈ slots ->
  equipment s !! slot = Some (Some A) ->
  Item.hashable A = true ->
  "equippable" ∈ Item.tags B ->
  1 <= count (backpack s) B ->
  fst (equip slot B s) = Ok tt /\
  equipment (snd (equip slot B s)) !! slot = Some (Some B) /\
  (A <> B ->
   count (backpack (snd (equip slot B s))) A = count (backpack s) A + 1 /\
   count (backpack (snd (equip slot B s))) B = count (backpack s) B - 1) /\
  (A = B ->
   count (backpack (snd (equip slot B s))) B = count (backpack s) B).
Proof.
  intros Hslot HA HhA Htag HB. rewrite equip_eq.
  assert (HhB : Item.hashable B = true)
    by (apply (count_positive_hashable (backpack s)); lia).
  rewrite !bool_decide_eq_true_2 by done. simpl. rewrite HA, HhA, HhB.
  assert (Hbp : count (<[A := count (backpack s) A + 1]> (backpack s)) B
                = if decide (A = B) then count (backpack s) B + 1
                  else count (backpack s) B).
  { rewrite count_insert by done. by destruct (decide (A = B)) as [-> |]. }
  destruct (Z.ltb_spec
              (count (<[A := count (backpack s) A + 1]> (backpack s)) B) 1)
    as [Hlt | Hge].
  { rewrite Hbp in Hlt. destruct (decide (A = B)); lia. }
  simpl. split; [done |]. split; [apply lookup_insert_eq |].
  rewrite Hbp. split.
  - intros Hne. rewrite decide_False by done.
    rewrite count_insert_eq by done. split; [| done].
    rewrite count_insert_ne by done. by apply count_insert_eq.
  - intros Heq. rewrite decide_True by done.
    rewrite count_insert_eq by done. lia.
Qed.

Lemma equip_hot_swap_witness :
  "head" ∈ slots /\
  equipment (snd (add item3 2 wearing_item1)) !! "head" = Some (Some item1) /\
  Item.hashable item1 = true /\
  "equippable" ∈ Item.tags item3 /\
  1 <= count (backpack (snd (add item3 2 wearing_item1))) item3 /\
  let s := snd (add item3 2 wearing_item1) in
  fst (equip "head" item3 s) = Ok tt /\
  equipment (snd (equip "head" item3 s)) !! "head" = Some (Some item3) /\
  (item1 <> item3 ->
   count (backpack (snd (equip "head" item3 s))) item1
   = count (backpack s) item1 + 1 /\
   count (backpack (snd (equip "head" item3 s))) item3
   = count (backpack s) item3 - 1) /\
  (item1 = item3 ->
   count (backpack (snd (equip "head" item3 s))) item3
   = count (backpack s) item3).
Proof.
  assert (H1 : "head" ∈ slots)
    by (apply (bool_decide_unpack _); vm_compute; exact I).
  assert (H2 : equipment (snd (add item3 2 wearing_item1)) !! "head"
               = Some (Some item1)) by (vm_compute; reflexivity).
  assert (H3 : "equippable" ∈ Item.tags item3)
    by (apply (bool_decide_unpack _); vm_compute; exact I).
  assert (H4 : 1 <= count (backpack (snd (add item3 2 wearing_item1))) item3)
    by (vm_compute; discriminate).
  split; [exact H1 |]. split; [exact H2 |]. split; [reflexivity |].
  split; [exact H3 |]. split; [exact H4 |].
  exact (equip_hot_swap (snd (add item3 2 wearing_item1)) "head" item1 item3
                        H1 H2 eq_refl H3 H4).
Defined.

(** C8 as stated fails when the item equipped is the one worn: with
    [item1] on the head and one more [item1] in the backpack,
    [equip("head", item1)] succeeds and the backpack still counts one
    [item1], not two. *)
Lemma equip_same_item_keeps_count :
  equipment wearing_item1_spare !! "head" = Some (Some item1) /\
  "equippable" ∈ Item.tags item1 /\
  count (backpack wearing_item1_spare) item1 = 1 /\
  fst (equip "head" item1 wearing_item1_spare) = Ok tt /\
  equipment (snd (equip "head" item1 wearing_item1_spare)) !! "head"
  = Some (Some item1) /\
  count (backpack (snd (equip "head" item1 wearing_item1_spare))) item1
  <> count (backpack wearing_item1_spare) item1 + 1.
Proof.
  split; [vm_compute; reflexivity |].
  split; [apply (bool_decide_unpack _); vm_compute; exact I |].
  vm_compute. repeat split. discriminate.
Qed.

(** *** The counts never go below zero *)

Lemma counts_nonneg_new : counts_nonneg new.
Proof.
  intros item. unfold count. simpl. rewrite lookup_empty.
  by destruct (Item.hashable item).
Qed.

(** Assigning a count that is not negative keeps the invariant. *)
Lemma counts_nonneg_insert (eq : gmap string (option Item.t))
    (bp : gmap Item.t Z) (item : Item.t) (n : Z) :
  (forall j : Item.t, 0 <= count bp j) ->
  0 <= n ->
  counts_nonneg (mk eq (<[item := n]> bp)).
Proof.
  intros Hbp Hn j. simpl. specialize (Hbp j). unfold count in *.
  destruct (Item.hashable j); [| done]. rewrite lookup_insert.
  by destruct (decide (item = j)).
Qed.

Lemma counts_nonneg_add (item : Item.t) (n : Z) (s : Inventory.t) :
  counts_nonneg s -> counts_nonneg (snd (add item n s)).
Proof.
  intros Hs. rewrite add_eq.
  destruct (Z.geb_spec n 0); [| done].
  destruct (Item.hashable item); [| done]. simpl.
  apply counts_nonneg_insert; [done |]. specialize (Hs item). lia.
Qed.

Lemma counts_nonneg_remove (item : Item.t) (n : Z) (s : Inventory.t) :
  counts_nonneg s -> counts_nonneg (snd (remove item n s)).
Proof.
  intros Hs. rewrite remove_eq.
  destruct (n >=? 0); [| done]. destruct (Item.hashable item); [| done].
  destruct (Z.ltb_spec (count (backpack s) item) n); [done |]. simpl.
  apply counts_nonneg_insert; [done | lia].
Qed.

Lemma counts_nonneg_unequip (slot : string) (s : Inventory.t) :
  counts_nonneg s -> counts_nonneg (snd (unequip slot s)).
Proof.
  intros Hs. rewrite unequip_eq.
  destruct (bool_decide (slot ∈ slots)); [| done].
  destruct (equipment s !! slot) as [[old |] |]; [| done | done].
  destruct (Item.hashable old); [| done]. simpl.
  apply counts_nonneg_insert; [done |]. specialize (Hs old). lia.
Qed.

Lemma counts_nonneg_use (item : Item.t) (s : Inventory.t) :
  counts_nonneg s -> counts_nonneg (snd (use item s)).
Proof.
  intros Hs. rewrite use_eq. destruct (Item.hashable item); [| done].
  destruct (count _ item >? 0); [| done]. by apply counts_nonneg_remove.
Qed.

(** [equip] keeps the invariant also when it fails half-way. *)
Lemma counts_nonneg_equip (slot : string) (item : Item.t)
    (s : Inventory.t) :
  counts_nonneg s -> counts_nonneg (snd (equip slot item s)).
Proof.
  intros Hs. rewrite equip_eq.
  destruct (bool_decide ("equippable" ∈ Item.tags item)); [| done].
  destruct (bool_decide (slot ∈ slots)); [| done]. simpl.
  destruct (equipment s !! slot) as [[old |] |]; [| | done].
  - destruct (Item.hashable old); [| done].
    assert (Hbp : counts_nonneg
                    (mk (<[slot := None]> (equipment s))
                        (<[old := count (backpack s) old + 1]> (backpack s)))).
    { apply counts_nonneg_insert; [done |]. specialize (Hs old). lia. }
    simpl. destruct (Item.hashable item); [| done].
    destruct (Z.ltb_spec
                (count (<[old := count (backpack s) old + 1]> (backpack s))
                       item) 1); [done |].
    simpl. apply counts_nonneg_insert; [exact Hbp | lia].
  - destruct (Item.hashable item); [| done].
    destruct (Z.ltb_spec (count (backpack s) item) 1); [done |]. simpl.
    apply counts_nonneg_insert; [done | lia].
Qed.

Lemma counts_nonneg_exec (c : call) (s : Inventory.t) :
  counts_nonneg s -> counts_nonneg (snd (exec c s)).
Proof.
  destruct c; simpl;
    auto using counts_nonneg_add, counts_nonneg_remove, counts_nonneg_equip,
      counts_nonneg_unequip, counts_nonneg_use.
Qed.

Lemma counts_nonneg_run (cs : list call) (s : Inventory.t) :
  counts_nonneg s -> counts_nonneg (run cs s).
Proof.
  revert s. induction cs as [| c cs IH]; intros s Hs; [done |].
  simpl. apply IH. by apply counts_nonneg_exec.
Qed.

(** C9. Whatever sequence of [add], [remove], [equip], [unequip] and [use]
    calls is made on a new inventory, each of them returning or raising,
    the backpack counts no item below zero. *)
Theorem backpack_counts_never_negative (cs : list call) (item : Item.t) :
  0 <= count (backpack (run cs new)) item.
Proof. apply counts_nonneg_run, counts_nonneg_new. Qed.

(** *** use *)

(** C10, as the code has it. For every inventory and every item, [use(item)]
    leaves the inventory that [remove(item, 1)] leaves and returns exactly
    when it returns. It raises exactly when the backpack holds no unit of
    the item, that is, when its count is zero or below (a [Counter] may hold
    a negative count; an item that cannot be hashed is in no backpack), and
    then changes nothing. The two do not raise the same exception for a
    missing unit: [use] raises the [ValueError] "does not contain any",
    [remove] the [ValueError] "does not contain enough"; both raise the
    [TypeError] of an item that cannot be hashed. When [use] returns, the
    count of the item is one less, and no other entry of the backpack and no
    slot has changed. *)
Theorem use_is_remove_one (s : Inventory.t) (item : Item.t) :
  snd (use item s) = snd (remove item 1 s) /\
  (succeeds (fst (use item s)) <-> succeeds (fst (remove item 1 s))) /\
  (raises (fst (use item s)) <-> count (backpack s) item <= 0) /\
  (raises (fst (use item s)) -> snd (use item s) = s) /\
  (Item.hashable item = true ->
   count (backpack s) item <= 0 ->
   fst (use item s) = Raise (ValueError NotAny) /\
   fst (remove item 1 s) = Raise (ValueError NotEnough)) /\
  (Item.hashable item = false ->
   fst (use item s) = Raise TypeError /\
   fst (remove item 1 s) = Raise TypeError) /\
  (succeeds (fst (use item s)) ->
   count (backpack (snd (use item s))) item = count (backpack s) item - 1 /\
   (forall j : Item.t,
       j <> item -> backpack (snd (use item s)) !! j = backpack s !! j) /\
   equipment (snd (use item s)) = equipment s).
Proof.
  rewrite use_eq, remove_eq. simpl.
  destruct (Item.hashable item) eqn:Hhash.
  - destruct (Z.gtb_spec (count (backpack s) item) 0) as [Hpos | Hzero].
    + destruct (Z.ltb_spec (count (backpack s) item) 1); [lia |]. simpl.
      split; [done |]. split; [done |].
      split; [split; [done | lia] |]. split; [done |].
      split; [intros _ ?; lia |]. split; [done |].
      intros _. split; [by apply count_insert_eq |].
      split; [| done]. intros j Hj. by apply lookup_insert_ne.
    + destruct (Z.ltb_spec (count (backpack s) item) 1); [| lia]. simpl.
      split; [done |]. split; [done |].
      split; [done |]. split; [done |].
      split; [done |]. split; [done |]. intros [].
  - rewrite (count_unhashable _ _ Hhash). simpl.
    split; [done |]. split; [done |].
    split; [done |]. split; [done |].
    split; [done |]. split; [done |]. intros [].
Qed.

(** C10 as stated fails on a backpack that counts an item below zero: with
    [-1] units of [item2], [use(item2)] raises although the count is not
    zero. *)
Lemma use_raises_on_negative_count :
  count (backpack overdrawn) item2 = -1 /\
  raises (fst (use item2 overdrawn)) /\
  fst (use item2 overdrawn) = Raise (ValueError NotAny) /\
  fst (remove item2 1 overdrawn) = Raise (ValueError NotEnough) /\
  count (backpack overdrawn) item2 <> 0.
Proof. vm_compute. repeat split. discriminate. Qed.

End InventoryFacts.

(** ** move_toward *)

Section MoveToward.

Lemma move_toward_cases (a b step : Z) :
  (a <= b /\ move_toward a b step = Z.min (a + step) b) \/
  (b < a /\ move_toward a b step = Z.max (a - step) b).
Proof.
  unfold move_toward. destruct (Z.geb_spec b a); [left | right]; split; lia.
Qed.

(** X1. With a step that is not negative, [move_toward] never overshoots and
    never moves away: the result lies between [a] and [b]. *)
Theorem move_toward_between (a b step : Z) :
  0 <= step ->
  Z.min a b <= move_toward a b step <= Z.max a b.
Proof.
  intros Hstep. destruct (move_toward_cases a b step) as [[H ->] | [H ->]]; lia.
Qed.

Lemma move_toward_between_witness :
  0 <= 3 /\ Z.min 10 4 <= move_toward 10 4 3 <= Z.max 10 4.
Proof. split; [lia |]. apply (move_toward_between 10 4 3). lia. Defined.








End MoveToward.

(** ** Action.create_damage_instance and Character.__repr__ *)

Section ActionFacts.

(** X5. [create_damage_instance] never builds a damage instance: it calls
    [self.damage], a name no [Action] answers to, and raises
    [AttributeError] whatever the action; the method that holds the damage
    is [get_damage], which answers [base_damage]. *)
Theorem create_damage_instance_raises (a : Action.t) :
  create_damage_instance a = Raise AttributeError /\
  (action_getattr a "get_damage" ≫= call_for_damage a)
  = Ok (DamageInstance.Finite (inject_Z (Action.base_damage a))).
Proof. split; reflexivity. Qed.

Lemma repr_loop_skips (name health : string) (pre rest : list Action.t) :
  Forall (fun a => Action.get_damage a <= 0) pre ->
  repr_loop name health (pre ++ rest)%list = repr_loop name health rest.
Proof.
  induction 1 as [| a pre Ha _ IH]; [done |].
  simpl. destruct (Z.gtb_spec (Action.get_damage a) 0); [lia | exact IH].
Qed.

(** X6. The rendering of a character names the damage of the first action, in
    list order, whose damage is positive, whatever the later ones deal; it
    names no damage when no action has a positive one; and it raises
    [TypeError] when the list of actions is unset. *)
Theorem character_repr_first_positive (c : Character.t) :
  (Character.actions c = None -> character_repr c = Raise TypeError) /\
  (forall l : list Action.t,
      Character.actions c = Some l ->
      Forall (fun a => Action.get_damage a <= 0) l ->
      character_repr c
      = Ok (str_of_name (Character.name c) +:+ " (♥ "
            +:+ str_of_int (Character.health c) +:+ ")")) /\
  (forall (pre post : list Action.t) (a : Action.t),
      Character.actions c = Some (pre ++ a :: post)%list ->
      Forall (fun a => Action.get_damage a <= 0) pre ->
      0 < Action.get_damage a ->
      character_repr c
      = Ok (str_of_name (Character.name c) +:+ " (♥ "
            +:+ str_of_int (Character.health c) +:+ " / ¤ "
            +:+ pretty (Action.get_damage a) +:+ ")")).
Proof.
  unfold character_repr. split; [by intros -> |]. split.
  - intros l -> Hl. f_equal.
    rewrite <- (app_nil_r l). by rewrite repr_loop_skips.
  - intros pre post a -> Hpre Ha. f_equal.
    rewrite repr_loop_skips by done. simpl.
    by destruct (Z.gtb_spec (Action.get_damage a) 0); [| lia].
Qed.

End ActionFacts.

(** ** More on Stats.modify and Character.modify *)

Section ModifyFacts.

Lemma is_Some_pick {A} (x y : option A) :
  is_Some (Stats.pick (x, y)) <-> is_Some x \/ is_Some y.
Proof.
  destruct x, y; simpl; split; eauto; intros [[] | []]; eauto; discriminate.
Qed.

(** X7. A patch cannot clear a field: a field of [s.modify(c)] is set exactly
    when it is set in [s] or in [c]. *)
Theorem stats_modify_never_unsets (s c : Stats.t) :
  exists r : Stats.t,
    Stats.modify s c = Ok r /\
    Forall (fun f => is_Some (f r) <-> is_Some (f s) \/ is_Some (f c))
           stats_fields.
Proof.
  eexists. split; [apply modify_unrolled |].
  unfold stats_fields.
  repeat (constructor; [apply is_Some_pick |]). constructor.
Qed.

(** X8. Applying a patch a second time changes nothing, a sheet patched with
    itself is itself, and the empty sheet patched with [c] is [c]. *)
Theorem stats_modify_idempotent (s c : Stats.t) :
  (exists r : Stats.t, Stats.modify s c = Ok r /\ Stats.modify r c = Ok r) /\
  Stats.modify s s = Ok s /\
  Stats.modify Stats.unset c = Ok c.
Proof.
  rewrite !modify_unrolled. split; [| split].
  - eexists. split; [reflexivity |]. rewrite modify_unrolled.
    destruct s as [s1 s2 s3 s4 s5 s6 s7 s8], c as [[] [] [] [] [] [] [] []];
      reflexivity.
  - by destruct s as [[] [] [] [] [] [] [] []].
  - by destruct c as [[] [] [] [] [] [] [] []].
Qed.

Lemma character_modify_assoc_fields (a b c : Character.t) :
  Character.modify (Character.modify a b) c
  = Character.modify a (Character.modify b c).
Proof.
  unfold Character.modify.
  cbn [Character.name Character.sprite_sheet Character.is_player
       Character.is_alive Character.base Character.bonuses Character.current
       Character.health Character.stamina Character.mana Character.inventory
       Character.actions Character.effects].
  by rewrite !pick_pick.
Qed.

(** X9. [Character.modify] with the empty sheet [Character()] returns the
    character as it is; patches chain associatively; and the health and the
    alive flag of the result are set exactly when they are set in the
    character or in the patch, so no patch brings them back to unset. *)
Theorem character_modify_laws (a b c : Character.t) :
  Character.modify a (Character.with_health_is_alive None None) = a /\
  Character.modify (Character.modify a b) c
  = Character.modify a (Character.modify b c) /\
  (is_Some (Character.health (Character.modify a b)) <->
   is_Some (Character.health a) \/ is_Some (Character.health b)) /\
  (is_Some (Character.is_alive (Character.modify a b)) <->
   is_Some (Character.is_alive a) \/ is_Some (Character.is_alive b)).
Proof.
  split; [by destruct a |]. split; [apply character_modify_assoc_fields |].
  split; apply is_Some_pick.
Qed.

End ModifyFacts.

(** ** More on Character.hit *)

Section HitFacts.

Import Character.

(** X10. [hit] returns exactly when the damage is a finite number and the health,
    the current sheet and its maximum health are set. Otherwise it raises,
    the first failing step deciding the exception: [int] of an infinite
    damage is an [OverflowError] and of a NaN a [ValueError]; an unset health
    does not subtract ([TypeError]); an unset current sheet has no
    [max_health] ([AttributeError]); an unset maximum does not compare
    ([TypeError]). *)
Theorem hit_returns_iff (c : Character.t) (attack : DamageInstance.t) :
  (succeeds (hit c attack) <->
   (exists q : Q, DamageInstance.damage attack = DamageInstance.Finite q) /\
   is_Some (health c) /\
   (exists st : Stats.t,
       current c = Some st /\ is_Some (Stats.max_health st))) /\
  (DamageInstance.damage attack = DamageInstance.NaN ->
   hit c attack = Raise (ValueError CannotConvertNaN)) /\
  (forall negative : bool,
      DamageInstance.damage attack = DamageInstance.Infinity negative ->
      hit c attack = Raise OverflowError) /\
  (forall q : Q,
      DamageInstance.damage attack = DamageInstance.Finite q ->
      (health c = None -> hit c attack = Raise TypeError) /\
      (is_Some (health c) -> current c = None ->
       hit c attack = Raise AttributeError) /\
      (forall st : Stats.t,
          is_Some (health c) -> current c = Some st ->
          Stats.max_health st = None ->
          hit c attack = Raise TypeError)).
Proof.
  unfold hit, current_max_health.
  destruct (DamageInstance.damage attack) as [q | negative |] eqn:Hq; simpl.
  - destruct (health c) as [h |] eqn:Hh; simpl.
    + destruct (current c) as [st |] eqn:Hc; simpl.
      * destruct (Stats.max_health st) as [m |] eqn:Hm; simpl.
        -- split; [split; [eauto 10 | done] |].
           split; [done |]. split; [done |].
           intros q' _. split; [done |]. split; [done |].
           intros st' _ [= <-]. by rewrite Hm.
        -- split; [split; [done |] |].
           { intros (_ & _ & st' & [= <-] & Hs). rewrite Hm in Hs.
             by destruct (is_Some_None Hs). }
           split; [done |]. split; [done |].
           intros q' _. split; [done |]. split; done.
      * split; [split; [done |] |].
        { by intros (_ & _ & st' & [=] & _). }
        split; [done |]. split; [done |].
        intros q' _. split; [done |]. split; done.
    + split; [split; [done |] |].
      { intros (_ & Hs & _). by destruct (is_Some_None Hs). }
      split; [done |]. split; [done |].
      intros q' _. split; [done |].
      split; [intros Hs; by destruct (is_Some_None Hs) |].
      intros st Hs. by destruct (is_Some_None Hs).
  - split; [split; [done |] |].
    { by intros ([q [=]] & _). }
    split; [done |]. split; [done |]. intros q [=].
  - split; [split; [done |] |].
    { by intros ([q [=]] & _). }
    split; [done |]. split; [done |]. intros q [=].
Qed.

(** X11. A snapshot that [hit] returns is the character with its health and its
    alive flag replaced: name, sprites, player flag, base and current sheets,
    bonuses, stamina, mana, inventory, actions and effects are those of the
    character hit; and the damage dealt is the integer part of the damage. *)
Theorem hit_changes_health_and_is_alive_only (c c' : Character.t)
    (attack : DamageInstance.t) (n : Z) :
  hit c attack = Ok (c', n) ->
  c' = mk (name c) (sprite_sheet c) (is_player c) (is_alive c') (base c)
          (bonuses c) (current c) (health c') (stamina c) (mana c)
          (inventory c) (actions c) (effects c) /\
  DamageInstance.int (DamageInstance.damage attack) = Ok n.
Proof.
  unfold hit.
  destruct (DamageInstance.int _) as [k |]; [| discriminate]. simpl.
  destruct (minus (health c) k) as [h0 |]; [| discriminate]. simpl.
  destruct (current_max_health c) as [mh |]; [| discriminate]. simpl.
  destruct (gt _ mh) as [above |]; [| discriminate]. simpl.
  intros [= <- <-]. by rewrite modify_with_health_is_alive.
Qed.

Lemma hit_changes_health_and_is_alive_only_witness :
  exists (c' : Character.t) (n : Z),
    hit wounded (attack_of (DamageInstance.Finite (7 # 2))) = Ok (c', n) /\
    c' = mk (name wounded) (sprite_sheet wounded) (is_player wounded)
            (is_alive c') (base wounded) (bonuses wounded) (current wounded)
            (health c') (stamina wounded) (mana wounded) (inventory wounded)
            (actions wounded) (effects wounded) /\
    DamageInstance.int
      (DamageInstance.damage (attack_of (DamageInstance.Finite (7 # 2))))
    = Ok n.
Proof.
  eexists _, _. split; [reflexivity |].
  eapply (hit_changes_health_and_is_alive_only wounded). reflexivity.
Defined.

(** X12. Whatever the health was, a snapshot [hit] returns has a health between
    [0] and the maximum health, provided the maximum is not negative. *)
Theorem hit_health_within_bounds (c c' : Character.t)
    (attack : DamageInstance.t) (n m : Z) (st : Stats.t) :
  hit c attack = Ok (c', n) ->
  current c = Some st ->
  Stats.max_health st = Some m ->
  0 <= m ->
  exists h' : Z, health c' = Some h' /\ 0 <= h' <= m.
Proof.
  unfold hit, current_max_health. intros Hhit Hc Hm Hpos.
  rewrite Hc, Hm in Hhit.
  destruct (DamageInstance.int _) as [k |]; [| discriminate]. simpl in Hhit.
  destruct (minus (health c) k) as [h0 |]; [| discriminate]. simpl in Hhit.
  injection Hhit as <- _. rewrite modify_with_health_is_alive. simpl.
  destruct (Z.leb_spec h0 0).
  - destruct (Z.gtb_spec 0 m); [lia |]. exists 0. split; [done | lia].
  - destruct (Z.gtb_spec h0 m); eexists; (split; [reflexivity | lia]).
Qed.

Lemma hit_health_within_bounds_witness :
  hit wounded (attack_of (DamageInstance.Finite (-50 # 1)))
  = Ok (Character.modify wounded
          (Character.with_health_is_alive (Some 20) None), -50) /\
  current wounded = Some wounded_stats /\
  Stats.max_health wounded_stats = Some 20 /\
  0 <= 20 /\
  exists h' : Z,
    health (Character.modify wounded
              (Character.with_health_is_alive (Some 20) None)) = Some h' /\
    0 <= h' <= 20.
Proof.
  assert (H : hit wounded (attack_of (DamageInstance.Finite (-50 # 1)))
              = Ok (Character.modify wounded
                      (Character.with_health_is_alive (Some 20) None), -50))
    by reflexivity.
  split; [exact H |]. split; [reflexivity |]. split; [reflexivity |].
  split; [lia |].
  apply (hit_health_within_bounds wounded _ _ (-50) 20 wounded_stats H);
    reflexivity || lia.
Defined.

Lemma trunc_small (q : Q) :
  (-1 < q)%Q -> (q < 1)%Q -> DamageInstance.trunc q = 0.
Proof.
  destruct q as [n d]. unfold Qlt, DamageInstance.trunc. simpl.
  intros Hlo Hhi. destruct (Z.le_gt_cases 0 n).
  - apply Z.quot_small. lia.
  - rewrite <- (Z.opp_involutive n), Z.quot_opp_l by lia.
    rewrite Z.quot_small; lia.
Qed.

(** Setting the health and the alive flag a character already has gives the
    character back. *)
Lemma modify_same_health_is_alive (c : Character.t) (h : Z) :
  health c = Some h ->
  modify c (with_health_is_alive (Some h) (is_alive c)) = c.
Proof.
  intros Hh. rewrite modify_with_health_is_alive.
  destruct c as [? ? ? a ? ? ? ? ? ? ? ? ?]. simpl in *. subst.
  by destruct a.
Qed.

(** X13. A damage of magnitude below [1], healing included, has no effect on a
    character whose health is positive and within its maximum: the snapshot
    returned is the character itself and the damage dealt is [0]. *)
Theorem hit_below_one_has_no_effect (c : Character.t)
    (attack : DamageInstance.t) (q : Q) (h m : Z) (st : Stats.t) :
  DamageInstance.damage attack = DamageInstance.Finite q ->
  (-1 < q)%Q ->
  (q < 1)%Q ->
  health c = Some h ->
  current c = Some st ->
  Stats.max_health st = Some m ->
  0 < h <= m ->
  hit c attack = Ok (c, 0).
Proof.
  intros Hq Hlo Hhi Hh Hc Hm Hrange.
  rewrite (hit_finite c attack q h m st Hq Hh Hc Hm).
  rewrite trunc_small by done. rewrite Z.sub_0_r.
  destruct (Z.leb_spec h 0); [lia |].
  destruct (Z.gtb_spec h m); [lia |].
  by rewrite modify_same_health_is_alive.
Qed.

Lemma hit_below_one_has_no_effect_witness :
  DamageInstance.damage (attack_of (DamageInstance.Finite (-9 # 10)))
  = DamageInstance.Finite (-9 # 10) /\
  (-1 < -9 # 10)%Q /\
  (-9 # 10 < 1)%Q /\
  health wounded = Some 10 /\
  current wounded = Some wounded_stats /\
  Stats.max_health wounded_stats = Some 20 /\
  0 < 10 <= 20 /\
  hit wounded (attack_of (DamageInstance.Finite (-9 # 10))) = Ok (wounded, 0).
Proof.
  repeat (split; [reflexivity || lia |]).
  apply (hit_below_one_has_no_effect
           wounded _ (-9 # 10) 10 20 wounded_stats);
    reflexivity || lia.
Defined.

(** X14. Two hits in a row by integer damages that are not negative leave
    the same snapshot as one hit by their sum, whatever the types and the
    effects of the three damage instances, for a character whose health is
    within a maximum that is not negative: a character killed by the first
    stays at health [0], and nothing is lost or gained in between. *)
Theorem hit_twice_is_hit_by_the_sum (c : Character.t)
    (a1 a2 a12 : DamageInstance.t) (d1 d2 h m : Z) (st : Stats.t) :
  DamageInstance.damage a1 = DamageInstance.Finite (inject_Z d1) ->
  DamageInstance.damage a2 = DamageInstance.Finite (inject_Z d2) ->
  DamageInstance.damage a12 = DamageInstance.Finite (inject_Z (d1 + d2)) ->
  health c = Some h ->
  current c = Some st ->
  Stats.max_health st = Some m ->
  h <= m ->
  0 <= m ->
  0 <= d1 ->
  0 <= d2 ->
  exists c1 c2 : Character.t,
    hit c a1 = Ok (c1, d1) /\
    hit c1 a2 = Ok (c2, d2) /\
    hit c a12 = Ok (c2, d1 + d2).
Proof.
  intros Ha1 Ha2 Ha12 Hh Hc Hm Hhm Hpos Hd1 Hd2.
  pose proof (hit_finite c a1 _ h m st Ha1 Hh Hc Hm) as H1.
  pose proof (hit_finite c a12 _ h m st Ha12 Hh Hc Hm) as H12.
  rewrite trunc_inject_Z in H1, H12. cbv zeta in H1, H12.
  rewrite H1, H12. clear H1 H12.
  eexists _, _. split; [reflexivity |].
  apply and_comm. split; [reflexivity |].
  erewrite hit_finite;
    [| exact Ha2 | rewrite modify_with_health_is_alive; reflexivity
     | exact Hc | exact Hm].
  rewrite trunc_inject_Z. cbv zeta. f_equal. f_equal.
  rewrite !modify_with_health_is_alive.
  cbn [name sprite_sheet is_player is_alive base bonuses current health
       stamina mana inventory actions effects Stats.pick].
  destruct (Z.leb_spec (h - d1) 0) as [Hdead | Halive].
  - destruct (Z.gtb_spec 0 m); [lia |].
    destruct (Z.leb_spec (0 - d2) 0); [| lia].
    destruct (Z.leb_spec (h - (d1 + d2)) 0); [| lia].
    destruct (Z.gtb_spec 0 m); [lia |]. reflexivity.
  - destruct (Z.gtb_spec (h - d1) m); [lia |].
    replace (h - d1 - d2) with (h - (d1 + d2)) by lia.
    destruct (Z.leb_spec (h - (d1 + d2)) 0).
    + destruct (Z.gtb_spec 0 m); [lia |]. by destruct (is_alive c).
    + destruct (Z.gtb_spec (h - (d1 + d2)) m); [lia |].
      by destruct (is_alive c).
Qed.

Lemma hit_twice_is_hit_by_the_sum_witness :
  DamageInstance.damage (fire_attack (DamageInstance.Finite (inject_Z 4)))
  = DamageInstance.Finite (inject_Z 4) /\
  DamageInstance.damage (attack_of (DamageInstance.Finite (inject_Z 9)))
  = DamageInstance.Finite (inject_Z 9) /\
  DamageInstance.damage (fire_attack (DamageInstance.Finite (inject_Z (4 + 9))))
  = DamageInstance.Finite (inject_Z (4 + 9)) /\
  health wounded = Some 10 /\
  current wounded = Some wounded_stats /\
  Stats.max_health wounded_stats = Some 20 /\
  10 <= 20 /\ 0 <= 20 /\ 0 <= 4 /\ 0 <= 9 /\
  exists c1 c2 : Character.t,
    hit wounded (fire_attack (DamageInstance.Finite (inject_Z 4)))
    = Ok (c1, 4) /\
    hit c1 (attack_of (DamageInstance.Finite (inject_Z 9))) = Ok (c2, 9) /\
    hit wounded (fire_attack (DamageInstance.Finite (inject_Z (4 + 9))))
    = Ok (c2, 4 + 9).
Proof.
  repeat (split; [reflexivity || lia |]).
  apply (hit_twice_is_hit_by_the_sum
           wounded
           (fire_attack (DamageInstance.Finite (inject_Z 4)))
           (attack_of (DamageInstance.Finite (inject_Z 9)))
           (fire_attack (DamageInstance.Finite (inject_Z (4 + 9))))
           4 9 10 20 wounded_stats);
    reflexivity || lia.
Defined.

(** X15. A character fresh from [Character.new], with a positive maximum
    health [m], hit by a damage instance of any type and effects whose
    damage is the integer [d]: it dies exactly when [d] reaches [m], it
    keeps [m - d] otherwise, never more than [m]; and a healing or empty hit
    ([d <= 0]) returns the very same character, as it is at full health. *)
Theorem hit_new_character (name : string) (sprites : list (string * string))
    (player : bool) (stats : Stats.t) (acts : list Action.t)
    (effs : list (string * Z)) (attack : DamageInstance.t) (m d : Z) :
  DamageInstance.damage attack = DamageInstance.Finite (inject_Z d) ->
  Stats.max_health stats = Some m ->
  0 < m ->
  exists c' : Character.t,
    hit (new name sprites player stats acts effs) attack = Ok (c', d) /\
    health c' = Some (if m <=? d then 0 else Z.min m (m - d)) /\
    is_alive c' = Some (d <? m) /\
    (d <= 0 -> c' = new name sprites player stats acts effs).
Proof.
  intros Hq Hm Hpos.
  assert (Hh : health (new name sprites player stats acts effs) = Some m)
    by exact Hm.
  rewrite (hit_finite _ attack _ m m stats Hq Hh eq_refl Hm).
  rewrite trunc_inject_Z. cbv zeta.
  eexists. split; [reflexivity |].
  destruct (Z.leb_spec (m - d) 0) as [Hdead | Halive].
  - destruct (Z.gtb_spec 0 m); [lia |].
    destruct (Z.leb_spec m d); [| lia].
    destruct (Z.ltb_spec d m); [lia |].
    split; [done |]. split; [done |]. lia.
  - destruct (Z.leb_spec m d); [lia |].
    destruct (Z.ltb_spec d m); [| lia].
    destruct (Z.gtb_spec (m - d) m) as [Hover | Hin].
    + split; [simpl; f_equal; lia |]. split; [done |]. intros _.
      by apply (modify_same_health_is_alive
                  (new name sprites player stats acts effs) m).
    + split; [simpl; f_equal; lia |]. split; [done |]. intros Hd.
      replace (m - d) with m by lia.
      by apply (modify_same_health_is_alive
                  (new name sprites player stats acts effs) m).
Qed.

Lemma hit_new_character_witness :
  DamageInstance.damage (fire_attack (DamageInstance.Finite (inject_Z 3)))
  = DamageInstance.Finite (inject_Z 3) /\
  Stats.max_health halo_stats = Some 8 /\
  0 < 8 /\
  exists c' : Character.t,
    hit (new "John Halo" [] true halo_stats [] [])
        (fire_attack (DamageInstance.Finite (inject_Z 3))) = Ok (c', 3) /\
    health c' = Some (if 8 <=? 3 then 0 else Z.min 8 (8 - 3)) /\
    is_alive c' = Some (3 <? 8) /\
    (3 <= 0 -> c' = new "John Halo" [] true halo_stats [] []).
Proof.
  split; [reflexivity |]. split; [reflexivity |]. split; [lia |].
  apply (hit_new_character
           "John Halo" [] true halo_stats [] []
           (fire_attack (DamageInstance.Finite (inject_Z 3))) 8 3);
    reflexivity || lia.
Defined.

(** X16. Healing reaches the dead: a dead character whose health ends positive
    after the hit (a negative damage on health [0], say) is returned with
    that positive health, capped at a positive maximum, and is still dead. *)
Theorem hit_heals_the_dead (c : Character.t) (attack : DamageInstance.t)
    (q : Q) (h m : Z) (st : Stats.t) :
  is_alive c = Some false ->
  DamageInstance.damage attack = DamageInstance.Finite q ->
  health c = Some h ->
  current c = Some st ->
  Stats.max_health st = Some m ->
  0 < m ->
  0 < h - DamageInstance.trunc q ->
  exists c' : Character.t,
    hit c attack = Ok (c', DamageInstance.trunc q) /\
    health c' = Some (Z.min m (h - DamageInstance.trunc q)) /\
    0 < Z.min m (h - DamageInstance.trunc q) /\
    is_alive c' = Some false.
Proof.
  intros Ha Hq Hh Hc Hm Hpos Hleft.
  rewrite (hit_finite c attack q h m st Hq Hh Hc Hm). cbv zeta.
  eexists. split; [reflexivity |].
  rewrite modify_with_health_is_alive. simpl. rewrite Ha.
  destruct (Z.leb_spec (h - DamageInstance.trunc q) 0); [lia |].
  split; [| split; [lia | done]].
  destruct (Z.gtb_spec (h - DamageInstance.trunc q) m); f_equal; lia.
Qed.

Lemma hit_heals_the_dead_witness :
  is_alive fallen = Some false /\
  DamageInstance.damage (attack_of (DamageInstance.Finite (-5 # 1)))
  = DamageInstance.Finite (-5 # 1) /\
  health fallen = Some 0 /\
  current fallen = Some wounded_stats /\
  Stats.max_health wounded_stats = Some 20 /\
  0 < 20 /\
  0 < 0 - DamageInstance.trunc (-5 # 1) /\
  exists c' : Character.t,
    hit fallen (attack_of (DamageInstance.Finite (-5 # 1)))
    = Ok (c', DamageInstance.trunc (-5 # 1)) /\
    health c' = Some (Z.min 20 (0 - DamageInstance.trunc (-5 # 1))) /\
    0 < Z.min 20 (0 - DamageInstance.trunc (-5 # 1)) /\
    is_alive c' = Some false.
Proof.
  repeat (split; [reflexivity || (vm_compute; reflexivity) |]).
  apply (hit_heals_the_dead fallen _ (-5 # 1) 0 20 wounded_stats);
    reflexivity || (vm_compute; reflexivity).
Defined.

End HitFacts.

(** ** More on Inventory *)

Section InventoryLaws.

Import Inventory.

Lemma slots_NoDup : NoDup slots.
Proof. apply (bool_decide_unpack _). vm_compute. exact I. Qed.

(** *** Round trips *)



(** X18. Equipping an item on a free slot and unequipping the slot again succeeds
    and gives back the equipment and every backpack count. *)
Theorem equip_then_unequip (s : Inventory.t) (slot : string) (item : Item.t) :
  slot ∈ slots ->
  "equippable" ∈ Item.tags item ->
  equipment s !! slot = Some None ->
  1 <= count (backpack s) item ->
  fst (equip slot item s) = Ok tt /\
  fst (unequip slot (snd (equip slot item s))) = Ok tt /\
  equipment (snd (unequip slot (snd (equip slot item s)))) = equipment s /\
  (forall j : Item.t,
      count (backpack (snd (unequip slot (snd (equip slot item s))))) j
      = count (backpack s) j).
Proof.
  intros Hslot Htag Hfree Hc. rewrite equip_eq.
  assert (Hhash : Item.hashable item = true)
    by (apply (count_positive_hashable (backpack s)); lia).
  rewrite !bool_decide_eq_true_2 by done. simpl. rewrite Hfree, Hhash.
  destruct (Z.ltb_spec (count (backpack s) item) 1); [lia |]. simpl.
  rewrite unequip_eq, bool_decide_eq_true_2 by done. simpl.
  rewrite lookup_insert_eq, Hhash. simpl.
  split; [done |]. split; [done |]. split.
  - rewrite insert_insert_eq. by apply insert_id.
  - intros j. rewrite count_insert_eq, !count_insert by done.
    destruct (decide (item = j)) as [-> |]; [lia | done].
Qed.

Lemma equip_then_unequip_witness :
  "feet" ∈ slots /\
  "equippable" ∈ Item.tags item1 /\
  equipment wearing_item1_spare !! "feet" = Some None /\
  1 <= count (backpack wearing_item1_spare) item1 /\
  let s := wearing_item1_spare in
  fst (equip "feet" item1 s) = Ok tt /\
  fst (unequip "feet" (snd (equip "feet" item1 s))) = Ok tt /\
  equipment (snd (unequip "feet" (snd (equip "feet" item1 s)))) = equipment s /\
  (forall j : Item.t,
      count (backpack (snd (unequip "feet" (snd (equip "feet" item1 s))))) j
      = count (backpack s) j).
Proof.
  assert (H1 : "feet" ∈ slots)
    by (apply (bool_decide_unpack _); vm_compute; exact I).
  assert (H2 : "equippable" ∈ Item.tags item1)
    by (apply (bool_decide_unpack _); vm_compute; exact I).
  assert (H3 : equipment wearing_item1_spare !! "feet" = Some None)
    by (vm_compute; reflexivity).
  assert (H4 : 1 <= count (backpack wearing_item1_spare) item1)
    by (vm_compute; discriminate).
  split; [exact H1 |]. split; [exact H2 |]. split; [exact H3 |].
  split; [exact H4 |].
  exact (equip_then_unequip wearing_item1_spare "feet" item1 H1 H2 H3 H4).
Defined.

(** X19. Unequipping a worn, equippable item that can be hashed and
    equipping it again on the same slot succeeds and gives back the
    equipment and every backpack count, when the count of the item is not
    negative. (A worn item that cannot be hashed is lost by [unequip], which
    clears the slot and raises [TypeError].) *)
Theorem unequip_then_equip (s : Inventory.t) (slot : string) (item : Item.t) :
  slot ∈ slots ->
  "equippable" ∈ Item.tags item ->
  equipment s !! slot = Some (Some item) ->
  Item.hashable item = true ->
  0 <= count (backpack s) item ->
  fst (unequip slot s) = Ok tt /\
  fst (equip slot item (snd (unequip slot s))) = Ok tt /\
  equipment (snd (equip slot item (snd (unequip slot s)))) = equipment s /\
  (forall j : Item.t,
      count (backpack (snd (equip slot item (snd (unequip slot s))))) j
      = count (backpack s) j).
Proof.
  intros Hslot Htag Hworn Hhash Hc. rewrite unequip_eq.
  rewrite bool_decide_eq_true_2 by done. rewrite Hworn, Hhash. simpl.
  rewrite equip_eq. rewrite !bool_decide_eq_true_2 by done. simpl.
  rewrite lookup_insert_eq, Hhash, count_insert_eq by done.
  destruct (Z.ltb_spec (count (backpack s) item + 1) 1); [lia |]. simpl.
  split; [done |]. split; [done |]. split.
  - rewrite insert_insert_eq. by apply insert_id.
  - intros j. rewrite !count_insert by done.
    destruct (decide (item = j)) as [-> |]; [lia | done].
Qed.

Lemma unequip_then_equip_witness :
  "head" ∈ slots /\
  "equippable" ∈ Item.tags item1 /\
  equipment wearing_item1 !! "head" = Some (Some item1) /\
  Item.hashable item1 = true /\
  0 <= count (backpack wearing_item1) item1 /\
  let s := wearing_item1 in
  fst (unequip "head" s) = Ok tt /\
  fst (equip "head" item1 (snd (unequip "head" s))) = Ok tt /\
  equipment (snd (equip "head" item1 (snd (unequip "head" s)))) = equipment s /\
  (forall j : Item.t,
      count (backpack (snd (equip "head" item1 (snd (unequip "head" s))))) j
      = count (backpack s) j).
Proof.
  assert (H1 : "head" ∈ slots)
    by (apply (bool_decide_unpack _); vm_compute; exact I).
  assert (H2 : "equippable" ∈ Item.tags item1)
    by (apply (bool_decide_unpack _); vm_compute; exact I).
  assert (H3 : equipment wearing_item1 !! "head" = Some (Some item1))
    by (vm_compute; reflexivity).
  assert (H4 : 0 <= count (backpack wearing_item1) item1)
    by (vm_compute; discriminate).
  split; [exact H1 |]. split; [exact H2 |]. split; [exact H3 |].
  split; [reflexivity |]. split; [exact H4 |].
  exact (unequip_then_equip wearing_item1 "head" item1 H1 H2 H3 eq_refl H4).
Defined.

(** *** Units are moved, not made *)

Lemma worn_in_insert_notin (eq : gmap string (option Item.t))
    (l : list string) (slot : string) (v : option Item.t) (item : Item.t) :
  slot ∉ l -> worn_in (<[slot := v]> eq) l item = worn_in eq l item.
Proof.
  induction l as [| x l IH]; [done |].
  intros Hnotin. apply not_elem_of_cons in Hnotin as [Hne Hl].
  simpl. rewrite lookup_insert_ne by done. by rewrite IH.
Qed.

Lemma worn_in_insert (eq : gmap string (option Item.t)) (l : list string)
    (slot : string) (v : option Item.t) (item : Item.t) :
  NoDup l ->
  slot ∈ l ->
  worn_in (<[slot := v]> eq) l item
  = worn_in eq l item
    - (if decide (eq !! slot = Some (Some item)) then 1 else 0)
    + (if decide (Some v = Some (Some item)) then 1 else 0).
Proof.
  induction l as [| x l IH]; intros Hnd Hin.
  - by apply elem_of_nil in Hin.
  - apply NoDup_cons in Hnd as [Hx Hnd]. simpl.
    destruct (decide (slot = x)) as [-> | Hne].
    + rewrite lookup_insert_eq, worn_in_insert_notin by done. lia.
    + apply elem_of_cons in Hin as [? | Hin]; [done |].
      rewrite lookup_insert_ne by done. rewrite IH by done. lia.
Qed.

(** X20. [equip] and [unequip] move units between a slot and the backpack
    and neither make nor lose any, as long as the item the slot wears can be
    hashed (an item that came out of the backpack always can): for every
    item, the units worn on the five slots plus the units counted in the
    backpack are the same after the call as before, whether the call returns
    or raises, the half-done [equip] included. *)
Theorem equip_unequip_conserve_units (s : Inventory.t) (slot : string)
    (item j : Item.t) :
  (forall old : Item.t,
      equipment s !! slot = Some (Some old) -> Item.hashable old = true) ->
  units (snd (equip slot item s)) j = units s j /\
  units (snd (unequip slot s)) j = units s j.
Proof.
  intros Hworn. unfold units. rewrite equip_eq, unequip_eq. split.
  - destruct (bool_decide ("equippable" ∈ Item.tags item)); [| done].
    destruct (bool_decide (slot ∈ slots)) eqn:Hslot; [| done].
    apply bool_decide_eq_true_1 in Hslot.
    cbn [negb fst snd equipment backpack].
    destruct (equipment s !! slot) as [[old |] |] eqn:Hcur; [| | done].
    + assert (Hold : Item.hashable old = true) by by apply Hworn.
      rewrite Hold. cbv zeta.
      destruct (Item.hashable item) eqn:Hitem;
        [destruct (count _ item <? 1) |];
        cbn [negb fst snd equipment backpack];
        rewrite ?(worn_in_insert _ _ _ _ _ slots_NoDup Hslot), ?Hcur;
        rewrite ?lookup_insert_eq, ?count_insert by done;
        repeat (destruct (decide _)); simplify_eq; lia.
    + destruct (Item.hashable item) eqn:Hitem; [| done].
      destruct (count _ item <? 1); cbn [negb fst snd equipment backpack];
        [done |].
      rewrite (worn_in_insert _ _ _ _ _ slots_NoDup Hslot), Hcur.
      rewrite !count_insert by done.
      repeat (destruct (decide _)); simplify_eq; lia.
  - destruct (bool_decide (slot ∈ slots)) eqn:Hslot; [| done].
    apply bool_decide_eq_true_1 in Hslot.
    destruct (equipment s !! slot) as [[old |] |] eqn:Hcur; [| done | done].
    assert (Hold : Item.hashable old = true) by by apply Hworn.
    rewrite Hold. cbn [negb fst snd equipment backpack].
    rewrite (worn_in_insert _ _ _ _ _ slots_NoDup Hslot), Hcur.
    rewrite count_insert by done.
    repeat (destruct (decide _)); simplify_eq; lia.
Qed.

Lemma equip_unequip_conserve_units_witness :
  (forall old : Item.t,
      equipment wearing_item1 !! "head" = Some (Some old) ->
      Item.hashable old = true) /\
  units (snd (equip "head" item3 wearing_item1)) item1
  = units wearing_item1 item1 /\
  units (snd (unequip "head" wearing_item1)) item1 = units wearing_item1 item1.
Proof.
  assert (H : forall old : Item.t,
             equipment wearing_item1 !! "head" = Some (Some old) ->
             Item.hashable old = true).
  { intros old Hold.
    assert (Hhead : equipment wearing_item1 !! "head" = Some (Some item1))
      by (vm_compute; reflexivity).
    rewrite Hhead in Hold. by injection Hold as <-. }
  split; [exact H |].
  exact (equip_unequip_conserve_units wearing_item1 "head" item3 item1 H).
Defined.

(** *** The slots are fixed *)

Lemma exec_equipment_dom (c : call) (s : Inventory.t) :
  dom (equipment (snd (exec c s))) = dom (equipment s).
Proof.
  destruct c as [item n | item n | slot item | slot | item]; simpl.
  - rewrite add_eq. destruct (n >=? 0); [| done].
    by destruct (Item.hashable item).
  - rewrite remove_eq. destruct (n >=? 0); [| done].
    destruct (Item.hashable item); [| done].
    by destruct (count _ item <? n).
  - rewrite equip_eq.
    destruct (bool_decide ("equippable" ∈ Item.tags item)); [| done].
    destruct (bool_decide (slot ∈ slots)); [| done]. simpl.
    destruct (equipment s !! slot) as [[old |] |] eqn:Hcur; [| | done].
    + destruct (Item.hashable old); simpl;
        [| by rewrite dom_insert_lookup_L].
      destruct (Item.hashable item); simpl;
        [| by rewrite dom_insert_lookup_L].
      destruct (count _ item <? 1); simpl.
      * by rewrite dom_insert_lookup_L.
      * rewrite insert_insert_eq. by rewrite dom_insert_lookup_L.
    + destruct (Item.hashable item); [| done].
      destruct (count _ item <? 1); simpl; [done |].
      by rewrite dom_insert_lookup_L.
  - rewrite unequip_eq. destruct (bool_decide (slot ∈ slots)); [| done].
    destruct (equipment s !! slot) as [[old |] |] eqn:Hcur; [| done | done].
    destruct (Item.hashable old); simpl; by rewrite dom_insert_lookup_L.
  - rewrite use_eq. destruct (Item.hashable item); [| done].
    destruct (count _ item >? 0); [| done].
    rewrite remove_eq. simpl. destruct (Item.hashable item); [| done].
    by destruct (count _ item <? 1).
Qed.

Lemma run_equipment_dom (cs : list call) (s : Inventory.t) :
  dom (equipment (run cs s)) = dom (equipment s).
Proof.
  revert s. induction cs as [| c cs IH]; intros s; [done |].
  simpl. fold (run cs (snd (exec c s))). rewrite IH. apply exec_equipment_dom.
Qed.

Lemma run_new_slots (cs : list call) (slot : string) :
  is_Some (equipment (run cs new) !! slot) <-> slot ∈ slots.
Proof.
  rewrite <- elem_of_dom, run_equipment_dom.
  unfold new, slots. simpl. rewrite !dom_insert_L, dom_empty_L.
  rewrite !elem_of_cons, elem_of_nil.
  rewrite !elem_of_union, !elem_of_singleton, elem_of_empty. tauto.
Qed.

(** X21. No call adds or removes a key of the equipment dictionary, whatever the
    inventory and whether the call returns or raises; so an inventory
    reached from [Inventory.new()] has the five slots for keys, and no
    other. *)
Theorem equipment_keys_are_fixed :
  (forall (c : call) (s : Inventory.t),
      dom (equipment (snd (exec c s))) = dom (equipment s)) /\
  (forall (cs : list call) (slot : string),
      is_Some (equipment (run cs new) !! slot) <-> slot ∈ slots).
Proof. split; [apply exec_equipment_dom | apply run_new_slots]. Qed.

(** *** What the slots wear *)

(** An item reaches a slot through [equip], which has taken it from the
    backpack: every item worn on an inventory reached from
    [Inventory.new()] can be hashed. *)
Lemma wears_hashable_insert (s : Inventory.t) (slot : string)
    (v : option Item.t) (bp : gmap Item.t Z) :
  wears_hashable s ->
  (forall item : Item.t, v = Some item -> Item.hashable item = true) ->
  wears_hashable (mk (<[slot := v]> (equipment s)) bp).
Proof.
  intros Hs Hv slot' old. simpl. rewrite lookup_insert.
  destruct (decide (slot = slot')); [| by apply Hs].
  intros [= ->]. by apply Hv.
Qed.

Lemma wears_hashable_backpack (s : Inventory.t) (bp : gmap Item.t Z) :
  wears_hashable s -> wears_hashable (mk (equipment s) bp).
Proof. intros Hs slot old. simpl. by apply Hs. Qed.

Lemma wears_hashable_exec (c : call) (s : Inventory.t) :
  wears_hashable s -> wears_hashable (snd (exec c s)).
Proof.
  intros Hs.
  destruct c as [item n | item n | slot item | slot | item]; simpl.
  - rewrite add_eq. destruct (n >=? 0); [| done].
    destruct (Item.hashable item); [| done]. by apply wears_hashable_backpack.
  - rewrite remove_eq. destruct (n >=? 0); [| done].
    destruct (Item.hashable item); [| done].
    destruct (count _ item <? n); [done |]. by apply wears_hashable_backpack.
  - rewrite equip_eq.
    destruct (bool_decide ("equippable" ∈ Item.tags item)); [| done].
    destruct (bool_decide (slot ∈ slots)); [| done]. simpl.
    destruct (equipment s !! slot) as [[old |] |] eqn:Hcur; [| | done].
    + destruct (Item.hashable old); simpl;
        [| by apply wears_hashable_insert].
      destruct (Item.hashable item) eqn:Hitem; simpl;
        [| by apply wears_hashable_insert].
      destruct (count _ item <? 1); simpl;
        [by apply wears_hashable_insert |].
      rewrite insert_insert_eq.
      apply wears_hashable_insert; [done |]. by intros ? [= <-].
    + destruct (Item.hashable item) eqn:Hitem; [| done].
      destruct (count _ item <? 1); simpl; [done |].
      apply wears_hashable_insert; [done |]. by intros ? [= <-].
  - rewrite unequip_eq. destruct (bool_decide (slot ∈ slots)); [| done].
    destruct (equipment s !! slot) as [[old |] |] eqn:Hcur; [| done | done].
    destruct (Item.hashable old); simpl; by apply wears_hashable_insert.
  - rewrite use_eq. destruct (Item.hashable item); [| done].
    destruct (count _ item >? 0); [| done].
    rewrite remove_eq. simpl. destruct (Item.hashable item); [| done].
    destruct (count _ item <? 1); [done |]. by apply wears_hashable_backpack.
Qed.

Lemma wears_hashable_new : wears_hashable new.
Proof.
  intros slot old. unfold new, slots. simpl.
  rewrite !lookup_insert.
  repeat (destruct (decide _); [discriminate |]).
  by rewrite lookup_empty.
Qed.

Lemma wears_hashable_run (cs : list call) (s : Inventory.t) :
  wears_hashable s -> wears_hashable (run cs s).
Proof.
  revert s. induction cs as [| c cs IH]; intros s Hs; [done |].
  simpl. apply IH. by apply wears_hashable_exec.
Qed.

(** *** When equip and unequip succeed *)

(** X22. On an inventory reached from [Inventory.new()], [equip(slot, item)]
    succeeds exactly when the item is equippable, the slot is one of the
    five, and the backpack holds a unit of the item or the slot already
    wears it; [unequip(slot)] succeeds exactly when the slot is one of the
    five and wears an item; and neither ever fails on a missing key. *)
Theorem equip_unequip_succeed_iff (cs : list call) (slot : string)
    (item : Item.t) :
  (succeeds (fst (equip slot item (run cs new))) <->
   "equippable" ∈ Item.tags item /\
   slot ∈ slots /\
   (1 <= count (backpack (run cs new)) item \/
    equipment (run cs new) !! slot = Some (Some item))) /\
  (succeeds (fst (unequip slot (run cs new))) <->
   slot ∈ slots /\
   exists old : Item.t, equipment (run cs new) !! slot = Some (Some old)) /\
  fst (equip slot item (run cs new)) <> Raise KeyError /\
  fst (unequip slot (run cs new)) <> Raise KeyError.
Proof.
  pose proof (counts_nonneg_run cs new counts_nonneg_new) as Hnn.
  pose proof (wears_hashable_run cs new wears_hashable_new) as Hwh.
  pose proof (run_new_slots cs slot) as Hkeys.
  set (s := run cs new) in *.
  rewrite equip_eq, unequip_eq.
  destruct (decide ("equippable" ∈ Item.tags item)) as [Htag | Htag];
    [rewrite (bool_decide_eq_true_2 _ Htag)
    | rewrite (bool_decide_eq_false_2 _ Htag)];
    (destruct (decide (slot ∈ slots)) as [Hslot | Hslot];
     [rewrite (bool_decide_eq_true_2 _ Hslot)
     | rewrite (bool_decide_eq_false_2 _ Hslot)]);
    cbn [negb fst snd];
    try (split; [| split; [| split]]; try done; split; try done;
         intros; destruct_and?; done).
  - destruct (equipment s !! slot) as [[old |] |] eqn:Hcur.
    + rewrite (Hwh slot old Hcur). cbv zeta.
      destruct (Item.hashable item) eqn:Hitem.
      * rewrite count_insert by (by apply (Hwh slot old)).
        specialize (Hnn item).
        destruct (decide (old = item)) as [-> | Hne].
        -- destruct (Z.ltb_spec (count (backpack s) item + 1) 1); [lia |].
           cbn [fst]. split; [| split; [| done]]; split; try done; eauto.
        -- destruct (Z.ltb_spec (count (backpack s) item) 1); cbn [fst].
           ++ split; [| split; [| done]]; split; try done; eauto.
              intros (_ & _ & [? | [=]]); [lia | done].
           ++ split; [| split; [| done]]; split; try done; eauto.
      * cbn [fst]. split; [| split; [| done]]; split; try done; eauto.
        intros (_ & _ & [Hc | [= ->]]).
        -- rewrite (count_unhashable _ _ Hitem) in Hc. lia.
        -- rewrite (Hwh slot item Hcur) in Hitem. discriminate.
    + destruct (Item.hashable item) eqn:Hitem.
      * destruct (Z.ltb_spec (count (backpack s) item) 1); cbn [fst].
        -- split; [| split; [| done]]; split; try done.
           ++ intros (_ & _ & [? | [=]]). lia.
           ++ by intros (_ & old & [=]).
        -- split; [| split; [| done]]; split; try done; eauto.
           by intros (_ & old & [=]).
      * cbn [fst]. split; [| split; [| done]]; split; try done.
        -- intros (_ & _ & [Hc | [=]]).
           rewrite (count_unhashable _ _ Hitem) in Hc. lia.
        -- by intros (_ & old & [=]).
    + apply Hkeys in Hslot. by destruct (is_Some_None Hslot).
  - destruct (equipment s !! slot) as [[old |] |] eqn:Hcur; cbn [fst].
    + rewrite (Hwh slot old Hcur). cbn [fst].
      split; [| split; [| done]]; split; try done; eauto.
      by intros (? & _).
    + split; [| split; [| done]]; split; try done.
      * by intros (? & _).
      * by intros (_ & old & [=]).
    + apply Hkeys in Hslot. by destruct (is_Some_None Hslot).
Qed.

(** *** What a call leaves alone *)

(** X23. [add], [remove] and [use] never touch the equipment, and [equip] and
    [unequip] never touch a slot other than the one they name, whether they
    return or raise. *)
Theorem calls_leave_other_slots (c : call) (s : Inventory.t) :
  (slot_of c = None -> equipment (snd (exec c s)) = equipment s) /\
  (forall slot' : string,
      slot_of c <> Some slot' ->
      equipment (snd (exec c s)) !! slot' = equipment s !! slot').
Proof.
  destruct c as [item n | item n | slot item | slot | item]; simpl.
  - rewrite add_eq. destruct (n >=? 0); [| done].
    by destruct (Item.hashable item).
  - rewrite remove_eq. destruct (n >=? 0); [| done].
    destruct (Item.hashable item); [| done].
    by destruct (count _ item <? n).
  - split; [done |]. intros slot' Hne.
    assert (slot <> slot') by congruence.
    rewrite equip_eq.
    destruct (bool_decide ("equippable" ∈ Item.tags item)); [| done].
    destruct (bool_decide (slot ∈ slots)); [| done]. simpl.
    destruct (equipment s !! slot) as [[old |] |]; [| | done];
      try destruct (Item.hashable old); simpl;
      destruct (Item.hashable item); simpl;
      try destruct (count _ item <? 1); simpl;
      by rewrite ?lookup_insert_ne.
  - split; [done |]. intros slot' Hne.
    assert (slot <> slot') by congruence.
    rewrite unequip_eq. destruct (bool_decide (slot ∈ slots)); [| done].
    destruct (equipment s !! slot) as [[old |] |]; [| done | done].
    destruct (Item.hashable old); simpl; by rewrite lookup_insert_ne.
  - rewrite use_eq. destruct (Item.hashable item); [| done].
    destruct (count _ item >? 0); [| done].
    rewrite remove_eq. simpl. destruct (Item.hashable item); [| done].
    by destruct (count _ item <? 1).
Qed.



End InventoryLaws.
